(** * The console page of the speech-to-speech tutor and its relay entry point

    A shallow embedding of [src/pages/ConsolePage.tsx] (the conversation
    orchestrator: avatar state machine, push-to-talk, turn-detection switch,
    context injection, tools, event log) and of [relay-server/index.js].

    JavaScript strings are sequences of UTF-16 code units, JSON documents are
    trees, the React state and refs of the page are one record that every
    function threads, [async] functions run in a state-and-rejection monad in
    which state changes made before a [throw] persist, and every call to a
    collaborator (recorder, player, realtime client, network) is appended to
    a call log so that order and multiplicity of effects can be stated. *)

From stdpp Require Import gmap strings list pretty.
From Stdlib Require Import QArith.

Local Open Scope Z_scope.

(* ------------------------------------------------------------------------ *)
(** ** JavaScript strings *)
(* ------------------------------------------------------------------------ *)

(** A JavaScript string: its UTF-16 code units, each below 65536. *)
Abbreviation jsstring := (list N).

(** A source literal (plain ASCII) as a JavaScript string. *)
Definition js (s : string) : jsstring :=
  List.map Ascii.N_of_ascii (String.list_ascii_of_string s).

Arguments js : simpl never.

(** [if (s)] on a string: only the empty string is falsy. *)
Definition truthy (s : jsstring) : bool :=
  match s with [] => false | _ :: _ => true end.

(** [s.startsWith(p)]. *)
Fixpoint startsWith (s p : jsstring) : bool :=
  match p, s with
  | [], _ => true
  | _ :: _, [] => false
  | c :: p', d :: s' => if (c =? d)%N then startsWith s' p' else false
  end.

(** [s === p] on strings. *)
Definition streq (s p : jsstring) : bool := bool_decide (s = p).
Arguments streq : simpl never.

(** The code units [String.prototype.trim] strips: ECMAScript WhiteSpace
    (TAB, VT, FF, ZWNBSP and the Unicode space separators) and
    LineTerminator (LF, CR, LS, PS). All of them lie in the basic plane. *)
Definition isTrimSpace (c : N) : bool :=
  ((c =? 9) || (c =? 10) || (c =? 11) || (c =? 12) || (c =? 13) || (c =? 32)
   || (c =? 160) || (c =? 5760)
   || ((8192 <=? c) && (c <=? 8202))
   || (c =? 8232) || (c =? 8233) || (c =? 8239) || (c =? 8287)
   || (c =? 12288) || (c =? 65279))%N.

Fixpoint trimStart (s : jsstring) : jsstring :=
  match s with
  | [] => []
  | c :: s' => if isTrimSpace c then trimStart s' else s
  end.

Definition trimEnd (s : jsstring) : jsstring := rev (trimStart (rev s)).

(** [s.trim()]. *)
Definition trim (s : jsstring) : jsstring := trimEnd (trimStart s).

(** A transcript that "consists only of whitespace" (the empty one included). *)
Definition blank (s : jsstring) : bool := forallb isTrimSpace s.

(** [encodeURIComponent] throws a URIError on a lone surrogate; this is the
    test it applies. The percent-encoding itself is not modelled: a request
    is recorded by the text it carries. *)
Fixpoint wellFormedUTF16 (s : jsstring) : bool :=
  match s with
  | [] => true
  | c :: s' =>
      if ((55296 <=? c) && (c <=? 56319))%N then
        match s' with
        | d :: s'' => ((56320 <=? d) && (d <=? 57343))%N && wellFormedUTF16 s''
        | [] => false
        end
      else if ((56320 <=? c) && (c <=? 57343))%N then false
      else wellFormedUTF16 s'
  end.

(* ------------------------------------------------------------------------ *)
(** ** JSON values and property access *)
(* ------------------------------------------------------------------------ *)

(* No induction over documents is needed: members are read at fixed paths. *)
Local Unset Elimination Schemes.
Inductive json : Type :=
  | JNull
  | JBool (b : bool)
  | JNum (q : Q)
  | JStr (s : jsstring)
  | JArr (items : list json)
  | JObj (fields : list (jsstring * json)).
Local Set Elimination Schemes.

(** A JavaScript value as the page sees one: [None] is [undefined]. *)
Abbreviation jsval := (option json).

(** The member of an object parsed from JSON: the last binding of the key
    wins, as in [JSON.parse]. *)
Fixpoint objGet (k : jsstring) (fields : list (jsstring * json)) : jsval :=
  match fields with
  | [] => None
  | (k', v) :: rest =>
      match objGet k rest with
      | Some w => Some w
      | None => if bool_decide (k = k') then Some v else None
      end
  end.

(** What goes wrong in the page. *)
Inductive JsError : Type :=
  | ClientNotInitialized            (* Error('RealtimeClient is not initialized') *)
  | HttpError (status : Z)          (* Error(`HTTP error! status: ...`) *)
  | NetworkError (reason : jsstring)(* fetch() rejected *)
  | BodyNotJson                     (* response.json() rejected *)
  | NullishAccess                   (* TypeError: property of null/undefined *)
  | URIError.                       (* encodeURIComponent on a lone surrogate *)

(** [v.k] for the member names the page reads ([message], [current],
    [current_units], [temperature_2m], [wind_speed_10m]): none of them is a
    built-in member of a primitive or an array, so only objects answer, and
    [null] and [undefined] throw. *)
Definition getProp (v : jsval) (k : jsstring) : JsError + jsval :=
  match v with
  | None => inl NullishAccess
  | Some JNull => inl NullishAccess
  | Some (JObj fields) => inr (objGet k fields)
  | Some _ => inr None
  end.

(* ------------------------------------------------------------------------ *)
(** ** Data model of the page *)
(* ------------------------------------------------------------------------ *)

(** [type AvatarState = 'idle' | 'think' | 'talk']. *)
Inductive AvatarState : Type := idle | think | talk.

Inductive Source : Type := client | server.

(** The payload of a realtime event, [{ [key: string]: any }]: the members
    the page reads. [transcript] is only read on transcription events, where
    the protocol supplies a string. *)
Record EventPayload : Type := {
  type : jsstring;
  transcript : jsstring;
}.

(** [interface RealtimeEvent]. *)
Record RealtimeEvent : Type := {
  time : jsstring;
  source : Source;
  count : option nat;
  event : EventPayload;
}.

(** [{ value: number; units: string }], filled by unchecked casts from the
    weather document. *)
Record Measure : Type := {
  value : jsval;
  units : jsval;
}.

(** [interface Coordinates]. *)
Record Coordinates : Type := {
  lat : Q;
  lng : Q;
  location : option jsstring;
  temperature : option Measure;
  wind_speed : option Measure;
}.

(** The realtime client as the page uses it: connection flag, the
    [turn_detection] member of its session configuration ([null] or
    [{ type }]) and the local input audio buffer, an [Int16Array]. *)
Record RealtimeClient : Type := {
  connected : bool;
  turn_detection : option jsstring;
  inputAudioBuffer : list Z;
}.

(** [Int16Array.byteLength]. *)
Definition byteLength (buf : list Z) : Z := 2 * Z.of_nat (length buf).

(** A request of [fetch]. *)
Inductive Request : Type :=
  | ContextQuery (query : jsstring)        (* /api/context?query=... *)
  | Forecast (latitude longitude : Q).     (* api.open-meteo.com/v1/forecast *)

(** Calls made on the collaborators, in the order they are made. *)
Inductive Call : Type :=
  | RecorderPause
  | RecorderRecord
  | PlayerInterrupt
  | UpdateSessionTurnDetection (td : option jsstring)
  | RealtimeSend (name : jsstring)
  | QueueInputAudio (buf : list Z)
  | CancelResponse (track : jsstring) (sampleOffset : Z)
  | SendUserMessageContent (text : jsval)
  | CreateResponse
  | Fetch (req : Request)
  | FunctionCallOutput (output : JsError + json).

(** [wavRecorder.getStatus()]. *)
Inductive RecorderStatus : Type := ended | paused | recording.

#[global] Instance AvatarState_eq_dec : EqDecision AvatarState.
Proof. solve_decision. Defined.
#[global] Instance RecorderStatus_eq_dec : EqDecision RecorderStatus.
Proof. solve_decision. Defined.

(** React state and refs of [ConsolePage], the state of the two audio
    collaborators, the browser's pending timers and the call log. Timer
    handles are positive, as [window.setTimeout] returns them, so a stored
    handle is always truthy. *)
Record Page : Type := {
  clientRef : option RealtimeClient;
  avatarState : AvatarState;
  avatarTimeoutRef : option positive;
  realtimeEvents : list RealtimeEvent;
  canPushToTalk : bool;
  isRecording : bool;
  memoryKv : gmap jsstring json;
  coords : option Coordinates;
  marker : option Coordinates;
  wavRecorder : RecorderStatus;
  wavStreamPlayer : option (jsstring * Z);
  timers : gmap positive (AvatarState * Z);
  nextTimer : positive;
  calls : list Call;
}.

(** Field updates of [Page]: what [setX(v)] or [xRef.current = v] does. *)
Definition with_clientRef (v : option RealtimeClient) (p : Page) : Page :=
  {| clientRef := v;
     avatarState := avatarState p;
     avatarTimeoutRef := avatarTimeoutRef p;
     realtimeEvents := realtimeEvents p;
     canPushToTalk := canPushToTalk p;
     isRecording := isRecording p;
     memoryKv := memoryKv p;
     coords := coords p;
     marker := marker p;
     wavRecorder := wavRecorder p;
     wavStreamPlayer := wavStreamPlayer p;
     timers := timers p;
     nextTimer := nextTimer p;
     calls := calls p |}.

Definition with_avatarState (v : AvatarState) (p : Page) : Page :=
  {| clientRef := clientRef p;
     avatarState := v;
     avatarTimeoutRef := avatarTimeoutRef p;
     realtimeEvents := realtimeEvents p;
     canPushToTalk := canPushToTalk p;
     isRecording := isRecording p;
     memoryKv := memoryKv p;
     coords := coords p;
     marker := marker p;
     wavRecorder := wavRecorder p;
     wavStreamPlayer := wavStreamPlayer p;
     timers := timers p;
     nextTimer := nextTimer p;
     calls := calls p |}.

Definition with_avatarTimeoutRef (v : option positive) (p : Page) : Page :=
  {| clientRef := clientRef p;
     avatarState := avatarState p;
     avatarTimeoutRef := v;
     realtimeEvents := realtimeEvents p;
     canPushToTalk := canPushToTalk p;
     isRecording := isRecording p;
     memoryKv := memoryKv p;
     coords := coords p;
     marker := marker p;
     wavRecorder := wavRecorder p;
     wavStreamPlayer := wavStreamPlayer p;
     timers := timers p;
     nextTimer := nextTimer p;
     calls := calls p |}.

Definition with_realtimeEvents (v : list RealtimeEvent) (p : Page) : Page :=
  {| clientRef := clientRef p;
     avatarState := avatarState p;
     avatarTimeoutRef := avatarTimeoutRef p;
     realtimeEvents := v;
     canPushToTalk := canPushToTalk p;
     isRecording := isRecording p;
     memoryKv := memoryKv p;
     coords := coords p;
     marker := marker p;
     wavRecorder := wavRecorder p;
     wavStreamPlayer := wavStreamPlayer p;
     timers := timers p;
     nextTimer := nextTimer p;
     calls := calls p |}.

Definition with_canPushToTalk (v : bool) (p : Page) : Page :=
  {| clientRef := clientRef p;
     avatarState := avatarState p;
     avatarTimeoutRef := avatarTimeoutRef p;
     realtimeEvents := realtimeEvents p;
     canPushToTalk := v;
     isRecording := isRecording p;
     memoryKv := memoryKv p;
     coords := coords p;
     marker := marker p;
     wavRecorder := wavRecorder p;
     wavStreamPlayer := wavStreamPlayer p;
     timers := timers p;
     nextTimer := nextTimer p;
     calls := calls p |}.

Definition with_isRecording (v : bool) (p : Page) : Page :=
  {| clientRef := clientRef p;
     avatarState := avatarState p;
     avatarTimeoutRef := avatarTimeoutRef p;
     realtimeEvents := realtimeEvents p;
     canPushToTalk := canPushToTalk p;
     isRecording := v;
     memoryKv := memoryKv p;
     coords := coords p;
     marker := marker p;
     wavRecorder := wavRecorder p;
     wavStreamPlayer := wavStreamPlayer p;
     timers := timers p;
     nextTimer := nextTimer p;
     calls := calls p |}.

Definition with_memoryKv (v : gmap jsstring json) (p : Page) : Page :=
  {| clientRef := clientRef p;
     avatarState := avatarState p;
     avatarTimeoutRef := avatarTimeoutRef p;
     realtimeEvents := realtimeEvents p;
     canPushToTalk := canPushToTalk p;
     isRecording := isRecording p;
     memoryKv := v;
     coords := coords p;
     marker := marker p;
     wavRecorder := wavRecorder p;
     wavStreamPlayer := wavStreamPlayer p;
     timers := timers p;
     nextTimer := nextTimer p;
     calls := calls p |}.

Definition with_coords (v : option Coordinates) (p : Page) : Page :=
  {| clientRef := clientRef p;
     avatarState := avatarState p;
     avatarTimeoutRef := avatarTimeoutRef p;
     realtimeEvents := realtimeEvents p;
     canPushToTalk := canPushToTalk p;
     isRecording := isRecording p;
     memoryKv := memoryKv p;
     coords := v;
     marker := marker p;
     wavRecorder := wavRecorder p;
     wavStreamPlayer := wavStreamPlayer p;
     timers := timers p;
     nextTimer := nextTimer p;
     calls := calls p |}.

Definition with_marker (v : option Coordinates) (p : Page) : Page :=
  {| clientRef := clientRef p;
     avatarState := avatarState p;
     avatarTimeoutRef := avatarTimeoutRef p;
     realtimeEvents := realtimeEvents p;
     canPushToTalk := canPushToTalk p;
     isRecording := isRecording p;
     memoryKv := memoryKv p;
     coords := coords p;
     marker := v;
     wavRecorder := wavRecorder p;
     wavStreamPlayer := wavStreamPlayer p;
     timers := timers p;
     nextTimer := nextTimer p;
     calls := calls p |}.

Definition with_wavRecorder (v : RecorderStatus) (p : Page) : Page :=
  {| clientRef := clientRef p;
     avatarState := avatarState p;
     avatarTimeoutRef := avatarTimeoutRef p;
     realtimeEvents := realtimeEvents p;
     canPushToTalk := canPushToTalk p;
     isRecording := isRecording p;
     memoryKv := memoryKv p;
     coords := coords p;
     marker := marker p;
     wavRecorder := v;
     wavStreamPlayer := wavStreamPlayer p;
     timers := timers p;
     nextTimer := nextTimer p;
     calls := calls p |}.

Definition with_wavStreamPlayer (v : option (jsstring * Z)) (p : Page) : Page :=
  {| clientRef := clientRef p;
     avatarState := avatarState p;
     avatarTimeoutRef := avatarTimeoutRef p;
     realtimeEvents := realtimeEvents p;
     canPushToTalk := canPushToTalk p;
     isRecording := isRecording p;
     memoryKv := memoryKv p;
     coords := coords p;
     marker := marker p;
     wavRecorder := wavRecorder p;
     wavStreamPlayer := v;
     timers := timers p;
     nextTimer := nextTimer p;
     calls := calls p |}.

Definition with_timers (v : gmap positive (AvatarState * Z)) (p : Page) : Page :=
  {| clientRef := clientRef p;
     avatarState := avatarState p;
     avatarTimeoutRef := avatarTimeoutRef p;
     realtimeEvents := realtimeEvents p;
     canPushToTalk := canPushToTalk p;
     isRecording := isRecording p;
     memoryKv := memoryKv p;
     coords := coords p;
     marker := marker p;
     wavRecorder := wavRecorder p;
     wavStreamPlayer := wavStreamPlayer p;
     timers := v;
     nextTimer := nextTimer p;
     calls := calls p |}.

Definition with_nextTimer (v : positive) (p : Page) : Page :=
  {| clientRef := clientRef p;
     avatarState := avatarState p;
     avatarTimeoutRef := avatarTimeoutRef p;
     realtimeEvents := realtimeEvents p;
     canPushToTalk := canPushToTalk p;
     isRecording := isRecording p;
     memoryKv := memoryKv p;
     coords := coords p;
     marker := marker p;
     wavRecorder := wavRecorder p;
     wavStreamPlayer := wavStreamPlayer p;
     timers := timers p;
     nextTimer := v;
     calls := calls p |}.

Definition with_calls (v : list Call) (p : Page) : Page :=
  {| clientRef := clientRef p;
     avatarState := avatarState p;
     avatarTimeoutRef := avatarTimeoutRef p;
     realtimeEvents := realtimeEvents p;
     canPushToTalk := canPushToTalk p;
     isRecording := isRecording p;
     memoryKv := memoryKv p;
     coords := coords p;
     marker := marker p;
     wavRecorder := wavRecorder p;
     wavStreamPlayer := wavStreamPlayer p;
     timers := timers p;
     nextTimer := nextTimer p;
     calls := v |}.

(* ------------------------------------------------------------------------ *)
(** ** Asynchronous functions *)
(* ------------------------------------------------------------------------ *)

(** How an [async] function ends: its promise resolves with a value or
    rejects with what was thrown. *)
Inductive Completion (A : Type) : Type :=
  | Resolved (a : A)
  | Rejected (e : JsError).
Arguments Resolved {A} a.
Arguments Rejected {A} e.

(** An [async] function of the page: it transforms the page state and
    completes. What it did to the state before throwing stays done. *)
Definition Async (A : Type) : Type := Page -> Page * Completion A.

#[global] Instance Async_ret : MRet Async :=
  fun A a p => (p, Resolved a).

#[global] Instance Async_bind : MBind Async :=
  fun A B k m p =>
    match m p with
    | (p', Resolved a) => k a p'
    | (p', Rejected e) => (p', Rejected e)
    end.

(** [throw e]. *)
Definition throw {A : Type} (e : JsError) : Async A :=
  fun p => (p, Rejected e).

(** A synchronous state change. *)
Definition modify (f : Page -> Page) : Async unit :=
  fun p => (f p, Resolved tt).

(** Reading the state. *)
Definition gets {A : Type} (f : Page -> A) : Async A :=
  fun p => (p, Resolved (f p)).

(** A call on a collaborator, recorded at the end of the call log. *)
Definition call (c : Call) : Async unit :=
  modify (fun p => with_calls (calls p ++ [c]) p).

(** A thrown property access. *)
Definition liftProp (r : JsError + jsval) : Async jsval :=
  match r with
  | inl e => throw e
  | inr v => mret v
  end.

(** The state and the completion of a run. *)
Definition stateOf {A : Type} (r : Page * Completion A) : Page := fst r.
Definition completionOf {A : Type} (r : Page * Completion A) : Completion A := snd r.

(** The calls a run added to the log of the state it started from. *)
Definition newCalls (before after : Page) : list Call :=
  drop (length (calls before)) (calls after).

(* ------------------------------------------------------------------------ *)
(** ** The collaborators *)
(* ------------------------------------------------------------------------ *)

(** What the network answers to one [fetch]. *)
Record Response : Type := {
  status : Z;
  body : option json;      (* [None]: the body does not parse as JSON *)
}.

(** [response.ok]: the status is in the range 200-299. *)
Definition ok (r : Response) : bool := (200 <=? status r) && (status r <=? 299).

Inductive FetchOutcome : Type :=
  | FetchRejected (reason : jsstring)      (* network failure *)
  | FetchResponse (r : Response).

(** [await fetch(req)]: the request is logged, the outcome is the
    environment's. *)
Definition fetch (net : FetchOutcome) (req : Request) : Async Response :=
  call (Fetch req) ;;
  match net with
  | FetchRejected reason => throw (NetworkError reason)
  | FetchResponse r => mret r
  end.

(** [await response.json()]. *)
Definition responseJson (r : Response) : Async json :=
  match body r with
  | None => throw BodyNotJson
  | Some j => mret j
  end.

(** Modelled from the spec: the capture pipeline ([lib/wavtools], the
    recorder) is not among the sources. Section 4.3: [begin()] acquires the
    input device, [record(onFrame)] delivers frames while active, [pause()]
    halts delivery without releasing the device, [end()] releases it. Of
    these the page's functions modelled here call [record] and [pause]; a
    recorder that is not delivering has nothing to halt. *)
Definition recorderRecord (s : RecorderStatus) : RecorderStatus := recording.

Definition recorderPause (s : RecorderStatus) : RecorderStatus :=
  match s with recording => paused | _ => s end.

(** [await wavRecorder.pause()]. *)
Definition wavRecorder_pause : Async unit :=
  call RecorderPause ;;
  modify (fun p => with_wavRecorder (recorderPause (wavRecorder p)) p).

(** [await wavRecorder.record(...)]. *)
Definition wavRecorder_record : Async unit :=
  call RecorderRecord ;;
  modify (fun p => with_wavRecorder (recorderRecord (wavRecorder p)) p).

(** What [wavStreamPlayer.interrupt()] hands back, as the page reads it:
    [trackSampleOffset?.trackId] and [offset]. *)
Record TrackSampleOffset : Type := {
  trackId : option jsstring;
  offset : Z;
}.

(** Modelled from the spec: the playback pipeline ([lib/wavtools], the stream
    player) is not among the sources. Section 4.4: [interrupt()] stops the
    currently playing track immediately and returns the (trackId,
    sampleOffset) pair at the stop instant. The player state is the track
    being played with the samples rendered so far; with no track playing
    there is no pair to return. *)
Definition playerInterrupt (playing : option (jsstring * Z))
  : option (jsstring * Z) * option TrackSampleOffset :=
  match playing with
  | Some (id, samples) => (None, Some {| trackId := Some id; offset := samples |})
  | None => (None, None)
  end.

(** [await wavStreamPlayer.interrupt()]. *)
Definition wavStreamPlayer_interrupt : Async (option TrackSampleOffset) :=
  call PlayerInterrupt ;;
  r ← gets (fun p => playerInterrupt (wavStreamPlayer p)) ;
  modify (with_wavStreamPlayer (fst r)) ;;
  mret (snd r).

(** The realtime client is a library; its calls are logged and, of their
    effects, the page only reads back the turn-detection setting, the
    connection flag and the input buffer. *)
Definition updateClient (f : RealtimeClient -> RealtimeClient) : Async unit :=
  modify (fun p => with_clientRef (f <$> clientRef p) p).

Definition setTurnDetection (td : option jsstring) (c : RealtimeClient) : RealtimeClient :=
  {| connected := connected c; turn_detection := td;
     inputAudioBuffer := inputAudioBuffer c |}.

Definition setInputAudioBuffer (buf : list Z) (c : RealtimeClient) : RealtimeClient :=
  {| connected := connected c; turn_detection := turn_detection c;
     inputAudioBuffer := buf |}.

(** [client.updateSession({ turn_detection })]. *)
Definition updateSession (td : option jsstring) : Async unit :=
  call (UpdateSessionTurnDetection td) ;;
  updateClient (setTurnDetection td).

(** [const client = clientRef.current; if (!client) throw ...]. *)
Definition getClient : Async RealtimeClient :=
  c ← gets clientRef ;
  match c with
  | None => throw ClientNotInitialized
  | Some c => mret c
  end.

(** The client object is shared: a later read sees the current one. *)
Definition currentClient (c0 : RealtimeClient) : Async RealtimeClient :=
  c ← gets clientRef ;
  mret (default c0 c).

(* ------------------------------------------------------------------------ *)
(** ** The avatar state machine *)
(* ------------------------------------------------------------------------ *)

(** [window.clearTimeout(h)]. *)
Definition clearTimeout (h : positive) (p : Page) : Page :=
  with_timers (delete h (timers p)) p.

(** [window.setTimeout(() => setAvatarState(s), ms)]: the handle returned. *)
Definition setTimeout (s : AvatarState) (ms : Z) (p : Page) : positive * Page :=
  let h := nextTimer p in
  (h, with_nextTimer (Pos.succ h) (with_timers (<[h := (s, ms)]> (timers p)) p)).

(** [setAvatarStateSafely(s, holdMs = 0)]. *)
Definition setAvatarStateSafely (s : AvatarState) (holdMs : Z) (p : Page) : Page :=
  let p1 :=
    match avatarTimeoutRef p with
    | Some h => with_avatarTimeoutRef None (clearTimeout h p)
    | None => p
    end in
  if 0 <? holdMs then
    let '(h, p2) := setTimeout s holdMs p1 in
    with_avatarTimeoutRef (Some h) p2
  else
    with_avatarState s p1.

(** The browser runs the callback of pending timer [h]; a cleared or fired
    timer never runs. The ref keeps the stale handle, as in the source. *)
Definition timerFires (h : positive) (p : Page) : Page :=
  match timers p !! h with
  | Some (s, _) => with_avatarState s (with_timers (delete h (timers p)) p)
  | None => p
  end.

(* ------------------------------------------------------------------------ *)
(** ** Push-to-talk and the turn-detection switch *)
(* ------------------------------------------------------------------------ *)

(** The shared tail of [startRecording] and of the interruption handler:
    [if (trackSampleOffset?.trackId) await client.cancelResponse(trackId, offset)]. *)
Definition cancelIfTrack (tso : option TrackSampleOffset) : Async unit :=
  match tso with
  | Some t =>
      match trackId t with
      | Some id => if truthy id then call (CancelResponse id (offset t)) else mret tt
      | None => mret tt
      end
  | None => mret tt
  end.

(** [startRecording]. *)
Definition startRecording : Async unit :=
  modify (with_isRecording true) ;;
  _ ← getClient ;
  trackSampleOffset ← wavStreamPlayer_interrupt ;
  cancelIfTrack trackSampleOffset ;;
  wavRecorder_record ;;
  modify (setAvatarStateSafely idle 0).

(** [stopRecording]. *)
Definition stopRecording : Async unit :=
  modify (with_isRecording false) ;;
  c0 ← getClient ;
  wavRecorder_pause ;;
  c ← currentClient c0 ;
  (if 0 <? byteLength (inputAudioBuffer c) then
     call (RealtimeSend (js "input_audio_buffer.commit")) ;;
     call (QueueInputAudio (inputAudioBuffer c)) ;;
     updateClient (setInputAudioBuffer [])
   else mret tt) ;;
  modify (setAvatarStateSafely think 0).

(** The callback handed to [wavRecorder.record]: a frame delivered while the
    recorder is active is appended to the client's input buffer. *)
Definition audioFrame (mono : list Z) (p : Page) : Page :=
  match wavRecorder p with
  | recording =>
      with_clientRef
        ((fun c => setInputAudioBuffer (inputAudioBuffer c ++ mono) c) <$> clientRef p) p
  | _ => p
  end.

(** [changeTurnEndType(value)]. *)
Definition changeTurnEndType (value : jsstring) : Async unit :=
  _ ← getClient ;
  status ← gets wavRecorder ;
  (if streq value (js "none") && bool_decide (status = recording)
   then wavRecorder_pause else mret tt) ;;
  updateSession (if streq value (js "none") then None else Some (js "server_vad")) ;;
  isConnected ← gets (fun p => from_option connected false (clientRef p)) ;
  (if streq value (js "server_vad") && isConnected
   then wavRecorder_record else mret tt) ;;
  modify (with_canPushToTalk (streq value (js "none"))).

(* ------------------------------------------------------------------------ *)
(** ** Context injection *)
(* ------------------------------------------------------------------------ *)

(** [client.getTurnDetectionType()]: the [type] of the session's
    [turn_detection], or [null] when there is none (or a falsy one). *)
Definition getTurnDetectionType : Async (option jsstring) :=
  gets (fun p =>
          match clientRef p ≫= turn_detection with
          | Some t => if truthy t then Some t else None
          | None => None
          end).

(** [injectContext(transcript)]; [net] is what the retrieval endpoint
    answers if it is asked. *)
Definition injectContext (net : FetchOutcome) (transcript : jsstring) : Async unit :=
  _ ← getClient ;
  let transcript := trim transcript in
  if negb (truthy transcript) then mret tt
  else
    (if wellFormedUTF16 transcript then mret tt else throw URIError) ;;
    response ← fetch net (ContextQuery transcript) ;
    (if negb (ok response) then throw (HttpError (status response)) else mret tt) ;;
    data ← responseJson response ;
    message ← liftProp (getProp (Some data) (js "message")) ;
    call (SendUserMessageContent message) ;;
    td ← getTurnDetectionType ;
    (match td with
     | None => call CreateResponse
     | Some _ => mret tt
     end) ;;
    modify (setAvatarStateSafely think 0).

(* ------------------------------------------------------------------------ *)
(** ** Tools *)
(* ------------------------------------------------------------------------ *)

(** The handler of [set_memory]:
    [setMemoryKv((kv) => ({ ...kv, [key]: value })); return { ok: true }].
    The object is a finite map from property names to values; a computed
    member overrides the spread one of the same name and leaves the others. *)
Definition set_memory (key : jsstring) (value : json) : Async json :=
  modify (fun p => with_memoryKv (<[key := value]> (memoryKv p)) p) ;;
  mret (JObj [(js "ok", JBool true)]).

(** [{ lat, lng, location }]. *)
Definition place (lat lng : Q) (location : jsstring) : Coordinates :=
  {| lat := lat; lng := lng; location := Some location;
     temperature := None; wind_speed := None |}.

(** [{ lat, lng, location, temperature, wind_speed }]. *)
Definition placeWithWeather (lat lng : Q) (location : jsstring)
    (temperature wind_speed : Measure) : Coordinates :=
  {| lat := lat; lng := lng; location := Some location;
     temperature := Some temperature; wind_speed := Some wind_speed |}.

(** [json.a.b]. *)
Definition member2 (json : json) (a b : jsstring) : Async jsval :=
  inner ← liftProp (getProp (Some json) a) ;
  liftProp (getProp inner b).

(** The handler of [get_weather]; [net] is what the forecast service
    answers. The response status is not looked at. *)
Definition get_weather (net : FetchOutcome) (lat lng : Q) (location : jsstring)
  : Async json :=
  modify (with_marker (Some (place lat lng location))) ;;
  modify (with_coords (Some (place lat lng location))) ;;
  result ← fetch net (Forecast lat lng) ;
  json ← responseJson result ;
  t ← member2 json (js "current") (js "temperature_2m") ;
  tu ← member2 json (js "current_units") (js "temperature_2m") ;
  let temperature := {| value := t; units := tu |} in
  w ← member2 json (js "current") (js "wind_speed_10m") ;
  wu ← member2 json (js "current_units") (js "wind_speed_10m") ;
  let wind_speed := {| value := w; units := wu |} in
  modify (with_marker (Some (placeWithWeather lat lng location temperature wind_speed))) ;;
  mret json.

(** Modelled from the spec: the tool dispatcher lives in the client library,
    which is not among the sources. Section 4.2: the registered handler is
    invoked and a function-call-output item is emitted once the handler
    resolves, success or error; section 7, ToolError: the output carries an
    error payload and the conversation continues. *)
Definition callTool (handler : Async json) : Async unit :=
  fun p =>
    match handler p with
    | (p', Resolved result) => call (FunctionCallOutput (inr result)) p'
    | (p', Rejected e) => call (FunctionCallOutput (inl e)) p'
    end.

(* ------------------------------------------------------------------------ *)
(** ** Event handlers *)
(* ------------------------------------------------------------------------ *)

Definition with_count (n : option nat) (e : RealtimeEvent) : RealtimeEvent :=
  {| time := time e; source := source e; count := n; event := event e |}.

(** The updater passed to [setRealtimeEvents]. The newest entry is updated in
    place and put back at the end of the copy; the previous array is dropped
    by React, so the returned list holding the updated entry is all there is
    to observe. The updater is taken to run once per event.
    [lastEvent.count || 0] reads a missing count as 0. *)
Definition logRealtimeEvent (rtEvent : RealtimeEvent) (prev : list RealtimeEvent)
  : list RealtimeEvent :=
  match last prev with
  | Some lastEvent =>
      if streq (type (event lastEvent)) (type (event rtEvent)) then
        take (length prev - 1)%nat prev
          ++ [with_count (Some (default 0%nat (count lastEvent) + 1)%nat) lastEvent]
      else prev ++ [rtEvent]
  | None => prev ++ [rtEvent]
  end.

Definition transcriptionCompleted : jsstring :=
  js "conversation.item.input_audio_transcription.completed".

(** [client.on('realtime.event', async (rtEvent) => ...)]; [net] is what the
    retrieval endpoint answers if this event makes the page ask it. *)
Definition onRealtimeEvent (net : FetchOutcome) (rtEvent : RealtimeEvent) : Async unit :=
  let t := type (event rtEvent) in
  (if streq t (js "input_audio_buffer.commit") || streq t transcriptionCompleted then
     modify (setAvatarStateSafely think 0)
   else if startsWith t (js "response.") || startsWith t (js "conversation.item.output") then
     modify (setAvatarStateSafely talk 0)
   else if streq t (js "response.completed") then
     modify (setAvatarStateSafely idle 300)
   else mret tt) ;;
  (if streq t transcriptionCompleted
   then injectContext net (transcript (event rtEvent)) else mret tt) ;;
  modify (fun p => with_realtimeEvents (logRealtimeEvent rtEvent (realtimeEvents p)) p).

(** [client.on('conversation.interrupted', async () => ...)]. *)
Definition onConversationInterrupted : Async unit :=
  trackSampleOffset ← wavStreamPlayer_interrupt ;
  cancelIfTrack trackSampleOffset ;;
  modify (setAvatarStateSafely idle 0).

(** The event log after a sequence of events went through the updater. *)
Definition logAll (evs : list RealtimeEvent) (prev : list RealtimeEvent)
  : list RealtimeEvent :=
  fold_left (fun log ev => logRealtimeEvent ev log) evs prev.

(* ------------------------------------------------------------------------ *)
(** ** Credentials: the client's construction and the relay's entry point *)
(* ------------------------------------------------------------------------ *)

(** [process.env.REACT_APP_LOCAL_RELAY_SERVER_URL || '']. *)
Definition LOCAL_RELAY_SERVER_URL (env : option jsstring) : jsstring :=
  match env with
  | Some u => if truthy u then u else []
  | None => []
  end.

(** The effect that initialises the API key: the stored key, else (only
    without a relay) the prompted one, which is then stored. The result is
    the [apiKey] state and the stored key. [stored] and [prompted] are
    [localStorage.getItem(...)] and [prompt(...)], [null] being [None]. *)
Definition initApiKey (relayUrl : jsstring) (stored prompted : option jsstring)
  : jsstring * option jsstring :=
  let storedApiKey := default [] stored in
  if negb (truthy relayUrl) && negb (truthy storedApiKey) then
    let newApiKey := default [] prompted in
    if truthy newApiKey then (newApiKey, Some newApiKey) else (storedApiKey, stored)
  else (storedApiKey, stored).

(** The options object handed to [new RealtimeClient(...)]. *)
Record ClientOptions : Type := {
  url : option jsstring;
  apiKey : option jsstring;
  dangerouslyAllowAPIKeyInBrowser : option bool;
}.

(** The effect that constructs the client; [None]: no client is made. *)
Definition initClient (relayUrl apiKey : jsstring) : option ClientOptions :=
  if truthy apiKey || truthy relayUrl then
    Some (if truthy relayUrl
          then {| url := Some relayUrl; apiKey := None;
                  dangerouslyAllowAPIKeyInBrowser := None |}
          else {| url := None; apiKey := Some apiKey;
                  dangerouslyAllowAPIKeyInBrowser := Some true |})
  else None.

(** The page from its environment to the client's options. *)
Definition pageClientOptions (envRelayUrl stored prompted : option jsstring)
  : option ClientOptions :=
  let relayUrl := LOCAL_RELAY_SERVER_URL envRelayUrl in
  initClient relayUrl (fst (initApiKey relayUrl stored prompted)).

(** The environment of the relay process, [process.env]; [PORT] is given by
    what [parseInt] makes of it, [None] being NaN. *)
Record RelayEnv : Type := {
  OPENAI_API_KEY : option jsstring;
  PORT : option Z;
}.

(** Modelled from the spec: [relay-server/lib/relay.js] is not among the
    sources. Sections 4.1 and 6: the relay is started with the credential;
    it accepts an unauthenticated inbound upgrade, opens one outbound
    connection per accepted client, attaches the credential only on the
    outbound leg and copies frames verbatim in both directions. *)
Record RealtimeRelay : Type := {
  relayApiKey : option jsstring;
  listening : option Z;
}.

(** One accepted connection: what the relay puts on each leg, given the
    frames that arrive on each. *)
Record RelayLegs : Type := {
  outboundCredential : option jsstring;   (* attached when connecting upstream *)
  toUpstream : list jsstring;             (* outbound leg, after the handshake *)
  toClient : list jsstring;               (* inbound leg *)
}.

Definition relayConnection (r : RealtimeRelay) (fromClient fromUpstream : list jsstring)
  : RelayLegs :=
  {| outboundCredential := relayApiKey r;
     toUpstream := fromClient;
     toClient := fromUpstream |}.

(** [relay-server/index.js]:
    [new RealtimeRelay(OPENAI_API_KEY)] and [relay.listen(PORT)] with
    [PORT = parseInt(process.env.PORT) || 8081]. *)
Definition relayMain (env : RelayEnv) : RealtimeRelay :=
  let port := match PORT env with
              | Some n => if n =? 0 then 8081 else n
              | None => 8081
              end in
  {| relayApiKey := OPENAI_API_KEY env; listening := Some port |}.

(** The page as [ConsolePage] first renders it, around a client (or none). *)
Definition initialPage (c : option RealtimeClient) : Page :=
  {| clientRef := c;
     avatarState := idle;
     avatarTimeoutRef := None;
     realtimeEvents := [];
     canPushToTalk := true;
     isRecording := false;
     memoryKv := ∅;
     coords := Some {| lat := Qmake 37775593 1000000;
                       lng := Qmake (-122418137) 1000000;
                       location := None; temperature := None; wind_speed := None |};
     marker := None;
     wavRecorder := ended;
     wavStreamPlayer := None;
     timers := ∅;
     nextTimer := 1%positive;
     calls := [] |}.

(** A client after [connect()]. *)
Definition connectedClient : RealtimeClient :=
  {| connected := true; turn_detection := None; inputAudioBuffer := [] |}.

(* ------------------------------------------------------------------------ *)
(** ** The event log as the specification words it *)
(* ------------------------------------------------------------------------ *)

(** One more occurrence folded into an entry. *)
Definition bump (e : RealtimeEvent) : RealtimeEvent :=
  with_count (Some (default 0%nat (count e) + 1)%nat) e.

(** "Consecutive identical-type events coalesce into one log entry with an
    incrementing count; non-identical types never merge": the log of a
    sequence of events, read off the sequence by runs of equal type. [cur] is
    the entry of the run being read. *)
Fixpoint specLogFrom (cur : RealtimeEvent) (evs : list RealtimeEvent)
  : list RealtimeEvent :=
  match evs with
  | [] => [cur]
  | e :: rest =>
      if streq (type (event cur)) (type (event e))
      then specLogFrom (bump cur) rest
      else cur :: specLogFrom e rest
  end.

Definition specLog (evs : list RealtimeEvent) : list RealtimeEvent :=
  match evs with
  | [] => []
  | e :: rest => specLogFrom e rest
  end.

(** No two neighbours of a log have the same type. *)
Definition neighboursDiffer (log : list RealtimeEvent) : Prop :=
  forall (i : nat) (e1 e2 : RealtimeEvent),
    log !! i = Some e1 -> log !! S i = Some e2 ->
    type (event e1) <> type (event e2).

(** An inbound event as the client library hands it over: no count yet. *)
Definition serverEvent (t : string) : RealtimeEvent :=
  {| time := js "2025-01-01T00:00:00.000Z"; source := server; count := None;
     event := {| type := js t; transcript := [] |} |}.

(* ------------------------------------------------------------------------ *)
(** ** Invariant of the avatar timer *)
(* ------------------------------------------------------------------------ *)

(** Every pending avatar timer is the one [avatarTimeoutRef] holds, and the
    handles in use are older than the next one the browser hands out. It
    holds of the initial page, and [setAvatarStateSafely] and the firing of
    a timer, the only steps that touch the timers, keep it. *)
Definition timersOk (p : Page) : Prop :=
  (forall h : positive, is_Some (timers p !! h) -> avatarTimeoutRef p = Some h)
  /\ (forall h : positive, avatarTimeoutRef p = Some h -> (h < nextTimer p)%positive).

(** A page with a hold pending towards [s]. *)
Definition pageHolding (s : AvatarState) (ms : Z) : Page :=
  setAvatarStateSafely s ms (initialPage (Some connectedClient)).

(* ------------------------------------------------------------------------ *)
(** ** Counting calls *)
(* ------------------------------------------------------------------------ *)

Definition isCommit (c : Call) : bool :=
  match c with
  | RealtimeSend name => streq name (js "input_audio_buffer.commit")
  | _ => false
  end.

Definition isCancel (c : Call) : bool :=
  match c with
  | CancelResponse _ _ => true
  | _ => false
  end.

Definition isPause (c : Call) : bool :=
  match c with
  | RecorderPause => true
  | _ => false
  end.

(** How many calls of a kind a run made. *)
Definition countCalls (kind : Call -> bool) (cs : list Call) : nat :=
  length (List.filter kind cs).

(** A connected page in manual mode with the push-to-talk button held:
    the recorder is delivering frames. *)
Definition pageTalking : Page :=
  with_isRecording true
    (with_wavRecorder recording (initialPage (Some connectedClient))).

(** A page on which the track of item [id] is being played, [samples]
    samples in. *)
Definition pagePlaying (id : string) (samples : Z) : Page :=
  with_wavStreamPlayer (Some (js id, samples))
    (with_avatarState talk (initialPage (Some connectedClient))).

(* ------------------------------------------------------------------------ *)
(** ** Failure of the context lookup *)
(* ------------------------------------------------------------------------ *)

(** What a failed lookup throws: the rejection of [fetch] on a network
    error, or the error [injectContext] raises on a response that is not ok.
    [None]: the lookup did not fail in either way. *)
Definition lookupFailure (net : FetchOutcome) : option JsError :=
  match net with
  | FetchRejected reason => Some (NetworkError reason)
  | FetchResponse r => if ok r then None else Some (HttpError (status r))
  end.

(** A completed input transcription as the server sends it. *)
Definition transcribed (text : string) : RealtimeEvent :=
  {| time := js "2025-01-01T00:00:01.000Z"; source := server; count := None;
     event := {| type := transcriptionCompleted; transcript := js text |} |}.

(* ------------------------------------------------------------------------ *)
(** ** Reading a weather document *)
(* ------------------------------------------------------------------------ *)

(** The member [a.b] of a document, when it is there. *)
Definition memberAt (j : json) (a b : jsstring) : jsval :=
  match j with
  | JObj fields =>
      match objGet a fields with
      | Some (JObj inner) => objGet b inner
      | _ => None
      end
  | _ => None
  end.



(** The units of temperature, a degree sign and a C. *)
Definition celsius : jsstring := 176%N :: js "C".

(** A document as the forecast service answers. *)
Definition forecastDocument (t : Q) (tu : jsstring) (w : Q) (wu : jsstring) : json :=
  JObj [(js "latitude", JNum (Qmake 377749 10000));
        (js "current_units",
         JObj [(js "time", JStr (js "iso8601"));
               (js "temperature_2m", JStr tu);
               (js "wind_speed_10m", JStr wu)]);
        (js "current",
         JObj [(js "time", JStr (js "2025-01-01T00:00"));
               (js "temperature_2m", JNum t);
               (js "wind_speed_10m", JNum w)])].

(* ------------------------------------------------------------------------ *)
(** ** Measures on the event log and on timers *)
(* ------------------------------------------------------------------------ *)

(** The events an entry stands for: itself and the ones folded into it. *)
Definition occurrencesOf (e : RealtimeEvent) : nat := S (default 0%nat (count e)).

(** The events a log stands for. *)
Definition occurrences (log : list RealtimeEvent) : nat :=
  sum_list_with occurrencesOf log.

(** An event as it arrives, before the log has counted anything on it. *)
Definition uncounted (e : RealtimeEvent) : Prop := count e = None.

(** Two pages with the same timer state. *)
Definition sameTimers (p q : Page) : Prop :=
  timers p = timers q
  /\ avatarTimeoutRef p = avatarTimeoutRef q
  /\ nextTimer p = nextTimer q.

(* ------------------------------------------------------------------------ *)
(** ** The rest of the page: connection, conversation items, display state *)
(* ------------------------------------------------------------------------ *)

(** [ItemType] of the client library, as the page reads it. A missing member
    is [None]. *)
Module ItemType.

Record Tool : Type := {
  name : jsstring;
  arguments : jsstring;
}.

(** [WavRecorder.decode(...)]'s result, of which the page reads [url]. *)
Record WavFile : Type := {
  url : jsstring;
}.

Record Formatted : Type := {
  transcript : option jsstring;
  text : option jsstring;
  audio : option (list Z);
  tool : option Tool;
  output : option jsstring;
  file : option WavFile;
}.

Record t : Type := {
  id : jsstring;
  role : option jsstring;
  type : jsstring;
  status : jsstring;
  formatted : Formatted;
}.

(** [item.formatted.file = wavFile]. *)
Definition with_file (f : WavFile) (i : t) : t :=
  {| id := id i; role := role i; type := type i; status := status i;
     formatted := {| transcript := transcript (formatted i);
                     text := text (formatted i);
                     audio := audio (formatted i);
                     tool := tool (formatted i);
                     output := output (formatted i);
                     file := Some f |} |}.

End ItemType.

(** Calls on the collaborators over the whole page: the ones of the first
    part and the ones only the functions below make. *)
Inductive ConsoleCall : Type :=
  | PageCall (c : Call)
  | RecorderBegin
  | RecorderEnd
  | PlayerConnect
  | PlayerAdd16BitPCM (audio : list Z) (trackId : jsstring)
  | ClientConnect
  | ClientDisconnect
  | ClientDeleteItem (id : jsstring)
  | DecodeAudio (audio : list Z).

(** The page with the state the first part left out: [isConnected], [items],
    [expandedEvents], [startTimeRef] (the instant it denotes, in
    milliseconds) and the log of all calls. *)
Record Console : Type := {
  page : Page;
  isConnected : bool;
  items : list ItemType.t;
  expandedEvents : gmap jsstring bool;
  startTimeRef : Z;
  consoleCalls : list ConsoleCall;
}.

Definition with_page (v : Page) (k : Console) : Console :=
  {| page := v; isConnected := isConnected k; items := items k;
     expandedEvents := expandedEvents k; startTimeRef := startTimeRef k;
     consoleCalls := consoleCalls k |}.

Definition with_isConnected (v : bool) (k : Console) : Console :=
  {| page := page k; isConnected := v; items := items k;
     expandedEvents := expandedEvents k; startTimeRef := startTimeRef k;
     consoleCalls := consoleCalls k |}.

Definition with_items (v : list ItemType.t) (k : Console) : Console :=
  {| page := page k; isConnected := isConnected k; items := v;
     expandedEvents := expandedEvents k; startTimeRef := startTimeRef k;
     consoleCalls := consoleCalls k |}.

Definition with_expandedEvents (v : gmap jsstring bool) (k : Console) : Console :=
  {| page := page k; isConnected := isConnected k; items := items k;
     expandedEvents := v; startTimeRef := startTimeRef k;
     consoleCalls := consoleCalls k |}.

Definition with_startTimeRef (v : Z) (k : Console) : Console :=
  {| page := page k; isConnected := isConnected k; items := items k;
     expandedEvents := expandedEvents k; startTimeRef := v;
     consoleCalls := consoleCalls k |}.

Definition with_consoleCalls (v : list ConsoleCall) (k : Console) : Console :=
  {| page := page k; isConnected := isConnected k; items := items k;
     expandedEvents := expandedEvents k; startTimeRef := startTimeRef k;
     consoleCalls := v |}.

(** An [async] function over the whole page. *)
Definition CAsync (A : Type) : Type := Console -> Console * Completion A.

#[global] Instance CAsync_ret : MRet CAsync :=
  fun A a k => (k, Resolved a).

#[global] Instance CAsync_bind : MBind CAsync :=
  fun A B f m k =>
    match m k with
    | (k', Resolved a) => f a k'
    | (k', Rejected e) => (k', Rejected e)
    end.

(** A function of the first part run inside the whole page: its state
    change is the page's, its calls join the log in order. *)
Definition liftPage {A : Type} (m : Async A) : CAsync A :=
  fun k =>
    let r := m (page k) in
    (with_consoleCalls (consoleCalls k ++ (PageCall <$> newCalls (page k) (fst r)))
       (with_page (fst r) k),
     snd r).

(** A synchronous change of the state outside [page]. *)
Definition cmodify (f : Console -> Console) : CAsync unit :=
  fun k => (f k, Resolved tt).

(** [throw e] over the whole page. *)
Definition cthrow {A : Type} (e : JsError) : CAsync A :=
  fun k => (k, Rejected e).

(** A call that is only logged. *)
Definition ccall (c : ConsoleCall) : CAsync unit :=
  cmodify (fun k => with_consoleCalls (consoleCalls k ++ [c]) k).

(** [await collaborator.method()]: the call is logged; the environment
    decides whether it rejects ([Some e]) or resolves, and on resolution the
    collaborator's state changes by [effect]. *)
Definition await (c : ConsoleCall) (outcome : option JsError) (effect : Page -> Page)
  : CAsync unit :=
  ccall c ;;
  match outcome with
  | Some e => cthrow e
  | None => cmodify (fun k => with_page (effect (page k)) k)
  end.

(** What [client.isConnected()] answers after [client.connect()] resolved
    ([true]) and after [client.disconnect()] ([false]). *)
Definition setConnected (b : bool) (c : RealtimeClient) : RealtimeClient :=
  {| connected := b; turn_detection := turn_detection c;
     inputAudioBuffer := inputAudioBuffer c |}.

(** [{ lat: 37.775593, lng: -122.418137 }]. *)
Definition defaultCoords : Coordinates :=
  {| lat := Qmake 37775593 1000000; lng := Qmake (-122418137) 1000000;
     location := None; temperature := None; wind_speed := None |}.

(** [connectConversation]. [now] is the instant of [new Date()];
    [begun], [playerConnected], [clientConnected] are how the three awaited
    calls end; [conversation] is [client.conversation.getItems()].
    Modelled from the spec for the recorder (section 4.3): [begin()]
    acquires the device and delivers nothing yet. *)
Definition connectConversation (now : Z)
    (begun playerConnected clientConnected : option JsError)
    (conversation : list ItemType.t) : CAsync unit :=
  _ ← liftPage getClient ;
  await RecorderBegin begun (with_wavRecorder paused) ;;
  await PlayerConnect playerConnected (fun p => p) ;;
  await ClientConnect clientConnected
    (fun p => with_clientRef (setConnected true <$> clientRef p) p) ;;
  liftPage (call (SendUserMessageContent (Some (JStr (js "Hello!"))))) ;;
  cmodify (with_startTimeRef now) ;;
  cmodify (with_isConnected true) ;;
  liftPage (modify (with_realtimeEvents [])) ;;
  cmodify (with_items conversation) ;;
  td ← liftPage getTurnDetectionType ;
  (if bool_decide (td = Some (js "server_vad"))
   then liftPage wavRecorder_record else mret tt).

(** [disconnectConversation]; [ended] is how [wavRecorder.end()] ends.
    Modelled from the spec for the recorder (section 4.3): [end()] releases
    the device. *)
Definition disconnectConversation (ended_ : option JsError) : CAsync unit :=
  cmodify (with_isConnected false) ;;
  liftPage (modify (with_realtimeEvents [])) ;;
  cmodify (with_items []) ;;
  liftPage (modify (with_memoryKv ∅)) ;;
  liftPage (modify (with_coords (Some defaultCoords))) ;;
  liftPage (modify (with_marker None)) ;;
  _ ← liftPage getClient ;
  ccall ClientDisconnect ;;
  cmodify (fun k => with_page (with_clientRef (setConnected false <$> clientRef (page k))
                                 (page k)) k) ;;
  await RecorderEnd ended_ (with_wavRecorder ended) ;;
  _ ← liftPage wavStreamPlayer_interrupt ;
  liftPage (modify (setAvatarStateSafely idle 0)).

(** [deleteConversationItem(id)]. *)
Definition deleteConversationItem (id : jsstring) : CAsync unit :=
  _ ← liftPage getClient ;
  ccall (ClientDeleteItem id).

(** [client.on('conversation.updated', async ({ item, delta }) => ...)].
    [delta] is [delta?.audio], [None] when the update carries no audio;
    [conversation] is [client.conversation.getItems()], which holds the very
    object [item], so that the file set on [item] shows in the list;
    [decoded] is how [WavRecorder.decode] ends. *)
Definition onConversationUpdated (conversation : list ItemType.t)
    (decoded : JsError + ItemType.WavFile)
    (item : ItemType.t) (delta : option (list Z)) : CAsync unit :=
  (match delta with
   | Some audio =>
       ccall (PlayerAdd16BitPCM audio (ItemType.id item)) ;;
       liftPage (modify (setAvatarStateSafely talk 0))
   | None => mret tt
   end) ;;
  (if streq (ItemType.status item) (js "completed") then
     if bool_decide (ItemType.role item = Some (js "assistant"))
     then liftPage (modify (setAvatarStateSafely idle 500))
     else mret tt
   else mret tt) ;;
  shown ←
    (if streq (ItemType.status item) (js "completed")
        && match ItemType.audio (ItemType.formatted item) with
           | Some samples => bool_decide (samples <> [])
           | None => false
           end
     then
       ccall (DecodeAudio (default [] (ItemType.audio (ItemType.formatted item)))) ;;
       match decoded with
       | inl e => cthrow e
       | inr wavFile =>
           mret ((fun i => if bool_decide (ItemType.id i = ItemType.id item)
                           then ItemType.with_file wavFile i else i) <$> conversation)
       end
     else mret conversation) ;
  cmodify (with_items shown).

(* ------------------------------------------------------------------------ *)
(** ** What the page displays *)
(* ------------------------------------------------------------------------ *)

(** ['' + n] on an integer. *)
Definition numberToString (n : Z) : jsstring := js (pretty n).

(** [pad] of [formatTime]: [n < 10 ? '0' + n : '' + n]. *)
Definition pad (n : Z) : jsstring :=
  if n <? 10 then js "0" ++ numberToString n else numberToString n.

(** [formatTime(timestamp)] against [startTimeRef.current]; both are given
    by the instants they denote, in milliseconds ([new Date(...).valueOf()]).
    [Math.floor] of a quotient by a positive number is [Z.div], [%] keeps the
    sign of the dividend and is [Z.rem]. *)
Definition formatTime (startTime timestamp : Z) : jsstring :=
  let delta := timestamp - startTime in
  let hs := Z.rem (delta / 10) 100 in
  let s := Z.rem (delta / 1000) 60 in
  let m := Z.rem (delta / 60000) 60 in
  pad m ++ js ":" ++ pad s ++ js "." ++ pad hs.

(** [expandedEvents] is a plain object, [{}] at first and a spread copy
    after every click, so it answers to the names of the members of
    [Object.prototype] without having them. What it answers is a function,
    or the prototype itself for [__proto__]: something truthy. *)
Definition objectPrototypeMembers : list jsstring :=
  [js "constructor"; js "hasOwnProperty"; js "isPrototypeOf";
   js "propertyIsEnumerable"; js "toLocaleString"; js "toString"; js "valueOf";
   js "__proto__"; js "__defineGetter__"; js "__defineSetter__";
   js "__lookupGetter__"; js "__lookupSetter__"].

Definition inheritedMember (id : jsstring) : bool :=
  bool_decide (id ∈ objectPrototypeMembers).

(** [!!expandedEvents[id]]: whether the payload of the event is shown. The
    map holds the object's own entries; an own entry is what is read, and
    without one an inherited member is. *)
Definition isExpanded (id : jsstring) (expanded : gmap jsstring bool) : bool :=
  match expanded !! id with
  | Some shown => shown
  | None => inheritedMember id
  end.

(** The click handler of an event's summary, on a copy of [expandedEvents]:
    [if (expanded[id]) delete expanded[id]; else expanded[id] = true].
    [delete] removes an own entry and does nothing to an inherited member;
    the assignment is only reached when the read is falsy, which is with an
    own [false] entry or with a name that is not inherited, and writes an own
    entry in both cases. *)
Definition toggleExpanded (id : jsstring) (expanded : gmap jsstring bool)
  : gmap jsstring bool :=
  if isExpanded id expanded then delete id expanded
  else <[id := true]> expanded.

Definition onClickEventSummary (id : jsstring) : CAsync unit :=
  cmodify (fun k => with_expandedEvents (toggleExpanded id (expandedEvents k)) k).

(** [a || b] on a string that may be missing. *)
Definition orElse (a : option jsstring) (b : jsstring) : jsstring :=
  match a with
  | Some s => if truthy s then s else b
  | None => b
  end.

(** The line of a user item. *)
Definition userText (f : ItemType.Formatted) : jsstring :=
  orElse (ItemType.transcript f)
    (match ItemType.audio f with
     | Some (_ :: _) => js "(awaiting transcript)"
     | _ => orElse (ItemType.text f) (js "(item sent)")
     end).

(** The line of an assistant item. *)
Definition assistantText (f : ItemType.Formatted) : jsstring :=
  orElse (ItemType.transcript f) (orElse (ItemType.text f) (js "(truncated)")).

(** What is rendered inside an item's [speaker-content], in order. *)
Inductive Shown : Type :=
  | ShownOutput (output : option jsstring)
  | ShownTool (name arguments : jsstring)
  | ShownText (line : jsstring)
  | ShownAudio (url : jsstring).

Definition speakerContent (i : ItemType.t) : list Shown :=
  let f := ItemType.formatted i in
  let noTool := match ItemType.tool f with Some _ => false | None => true end in
  (if streq (ItemType.type i) (js "function_call_output")
   then [ShownOutput (ItemType.output f)] else [])
  ++ match ItemType.tool f with
     | Some t => [ShownTool (ItemType.name t) (ItemType.arguments t)]
     | None => []
     end
  ++ (if noTool && bool_decide (ItemType.role i = Some (js "user"))
      then [ShownText (userText f)] else [])
  ++ (if noTool && bool_decide (ItemType.role i = Some (js "assistant"))
      then [ShownText (assistantText f)] else [])
  ++ match ItemType.file f with
     | Some w => [ShownAudio (ItemType.url w)]
     | None => []
     end.

Definition isShownText (s : Shown) : bool :=
  match s with ShownText _ => true | _ => false end.

(* ------------------------------------------------------------------------ *)
(** ** Everything that can happen to the page *)
(* ------------------------------------------------------------------------ *)

(** The page once it is mounted, at instant [now], around the client its
    mount effects constructed, or none if they had nothing to construct it
    with. *)
Definition initialConsole (now : Z) (c : option RealtimeClient) : Console :=
  {| page := initialPage c; isConnected := false; items := [];
     expandedEvents := ∅; startTimeRef := now; consoleCalls := [] |}.

(** One thing happening: a handler runs to its end, resolved or rejected;
    a tool handler runs; the recorder delivers a frame; the browser runs a
    timer; the player moves on in what it renders. *)
Inductive ConsoleStep : Console -> Console -> Prop :=
  | StepRealtimeEvent (net : FetchOutcome) (rtEvent : RealtimeEvent) (k : Console) :
      ConsoleStep k (fst (liftPage (onRealtimeEvent net rtEvent) k))
  | StepInterrupted (k : Console) :
      ConsoleStep k (fst (liftPage onConversationInterrupted k))
  | StepConversationUpdated (conversation : list ItemType.t)
      (decoded : JsError + ItemType.WavFile) (item : ItemType.t)
      (delta : option (list Z)) (k : Console) :
      ConsoleStep k (fst (onConversationUpdated conversation decoded item delta k))
  | StepStartRecording (k : Console) :
      ConsoleStep k (fst (liftPage startRecording k))
  | StepStopRecording (k : Console) :
      ConsoleStep k (fst (liftPage stopRecording k))
  | StepChangeTurnEndType (value : jsstring) (k : Console) :
      ConsoleStep k (fst (liftPage (changeTurnEndType value) k))
  | StepSetMemory (key : jsstring) (value : json) (k : Console) :
      ConsoleStep k (fst (liftPage (set_memory key value) k))
  | StepGetWeather (net : FetchOutcome) (lat lng : Q) (location : jsstring)
      (k : Console) :
      ConsoleStep k (fst (liftPage (get_weather net lat lng location) k))
  | StepConnect (now : Z) (begun playerConnected clientConnected : option JsError)
      (conversation : list ItemType.t) (k : Console) :
      ConsoleStep k
        (fst (connectConversation now begun playerConnected clientConnected
                conversation k))
  | StepDisconnect (ended_ : option JsError) (k : Console) :
      ConsoleStep k (fst (disconnectConversation ended_ k))
  | StepDeleteItem (id : jsstring) (k : Console) :
      ConsoleStep k (fst (deleteConversationItem id k))
  | StepClickEventSummary (id : jsstring) (k : Console) :
      ConsoleStep k (fst (onClickEventSummary id k))
  | StepAudioFrame (mono : list Z) (k : Console) :
      ConsoleStep k (with_page (audioFrame mono (page k)) k)
  | StepTimerFires (h : positive) (k : Console) :
      ConsoleStep k (with_page (timerFires h (page k)) k)
  | StepPlayback (playing : option (jsstring * Z)) (k : Console) :
      ConsoleStep k (with_page (with_wavStreamPlayer playing (page k)) k).

(** The states of the page that can be reached from a first render. *)
Definition reachable (k : Console) : Prop :=
  exists (now : Z) (c : option RealtimeClient),
    rtc ConsoleStep (initialConsole now c) k.

(** Every own entry of [expandedEvents] is [true], collapsing removes the
    entry, and none is under the name of an inherited member, which is never
    read as falsy and so never written. *)
Definition onlyTrue (expanded : gmap jsstring bool) : Prop :=
  forall (id : jsstring) (b : bool),
    expanded !! id = Some b -> b = true /\ inheritedMember id = false.

(* ------------------------------------------------------------------------ *)
(** ** Properties kept by a run *)
(* ------------------------------------------------------------------------ *)

(** [m] keeps [P]: whatever state it ends in, resolved or rejected, [P]
    still holds. *)
Definition keeps {A : Type} (P : Page -> Prop) (m : Async A) : Prop :=
  forall p : Page, P p -> P (stateOf (m p)).

Definition ckeeps {A : Type} (Q : Console -> Prop) (m : CAsync A) : Prop :=
  forall k : Console, Q k -> Q (fst (m k)).

(** An assistant message item as the library hands it over. *)
Definition assistantItem (id status : string) (samples : list Z) : ItemType.t :=
  {| ItemType.id := js id; ItemType.role := Some (js "assistant");
     ItemType.type := js "message"; ItemType.status := js status;
     ItemType.formatted :=
       {| ItemType.transcript := None; ItemType.text := None;
          ItemType.audio := Some samples; ItemType.tool := None;
          ItemType.output := None; ItemType.file := None |} |}.

(** The page right after an assistant item without audio completed. *)
Definition consoleAfterCompletion : Console :=
  fst (onConversationUpdated [assistantItem "item_1" "completed" []] (inl BodyNotJson)
         (assistantItem "item_1" "completed" []) None
         (initialConsole 0 (Some connectedClient))).

(** A client as [new RealtimeClient(...)] leaves it: not connected, nothing
    buffered; the page starts in manual mode. *)
Definition freshlyMade : RealtimeClient :=
  {| connected := false; turn_detection := None; inputAudioBuffer := [] |}.

(** The page after a connection that went through, started at instant
    1000, on a client in manual mode. *)
Definition consoleConnected : Console :=
  fst (connectConversation 1000 None None None [] (initialConsole 0 (Some freshlyMade))).

(** The recorder delivering frames one after the other. *)
Definition deliver (frames : list (list Z)) (p : Page) : Page :=
  fold_left (fun q mono => audioFrame mono q) frames p.

(** The calls a run over the whole page added to the log. *)
Definition newConsoleCalls (before after : Console) : list ConsoleCall :=
  drop (length (consoleCalls before)) (consoleCalls after).

Definition isPlayerAdd (c : ConsoleCall) : bool :=
  match c with PlayerAdd16BitPCM _ _ => true | _ => false end.

Definition isGreeting (c : ConsoleCall) : bool :=
  match c with PageCall (SendUserMessageContent _) => true | _ => false end.

(** [item.status === 'completed'] with [item.role === 'assistant']. *)
Definition completedAssistant (item : ItemType.t) : bool :=
  streq (ItemType.status item) (js "completed")
  && bool_decide (ItemType.role item = Some (js "assistant")).

(** [item.status === 'completed' && item.formatted.audio?.length]. *)
Definition completedWithAudio (item : ItemType.t) : bool :=
  streq (ItemType.status item) (js "completed")
  && match ItemType.audio (ItemType.formatted item) with
     | Some (_ :: _) => true
     | _ => false
     end.

(** The two decimal digits of a number below one hundred. *)
Definition twoDigits (n : Z) : jsstring :=
  [48 + Z.to_N (n / 10); 48 + Z.to_N (n mod 10)]%N.

(* ======================================================================== *)
(** * Properties *)
(* ======================================================================== *)

(** Unfolding of the monad and of the small steps built on it. *)
Ltac run :=
  repeat (unfold mbind, mret, Async_bind, Async_ret, throw, modify, gets, call,
          liftProp, stateOf, completionOf, getClient, currentClient,
          updateClient, updateSession, wavRecorder_pause, wavRecorder_record,
          wavStreamPlayer_interrupt, getTurnDetectionType, fetch, responseJson
          in *; cbn in *).

(** Opening the page record, so that every field read computes. *)
Ltac page p :=
  destruct p as [cr av atr evs cpt isr mem co mk rec pl tm nt cl]; cbn in *.

(** Closing a goal about the calls a run added. *)
Ltac new_calls :=
  unfold newCalls; cbn; rewrite <- ?app_assoc; rewrite ?drop_app_length; cbn;
  try done.

Section Strings.

Lemma trimStart_blank (s : jsstring) : blank s = true -> trimStart s = [].
Proof.
  induction s as [|c s IH]; cbn; [done|].
  intros [Hc Hs]%andb_prop. rewrite Hc. auto.
Qed.

Lemma trim_blank (s : jsstring) : blank s = true -> trim s = [].
Proof.
  intros H. unfold trim, trimEnd. by rewrite (trimStart_blank s H).
Qed.

Lemma trimStart_nil_blank (s : jsstring) : trimStart s = [] -> blank s = true.
Proof.
  induction s as [|c s IH]; cbn; [done|].
  destruct (isTrimSpace c); [auto | discriminate].
Qed.

(** [trim] leaves nothing exactly on the blank strings. *)
Lemma trim_nil_iff (s : jsstring) : trim s = [] <-> blank s = true.
Proof.
  split; [|apply trim_blank].
  unfold trim, trimEnd. intros H.
  apply (f_equal (@rev N)) in H. rewrite rev_involutive in H. cbn in H.
  apply trimStart_nil_blank in H.
  destruct (trimStart s) as [|c r] eqn:E; [by apply trimStart_nil_blank|].
  exfalso.
  assert (Hhd : isTrimSpace c = false).
  { clear H. induction s as [|d s IH]; cbn in E; [discriminate|].
    destruct (isTrimSpace d) eqn:Hd; [auto|]. by inversion E; subst. }
  unfold blank in H. rewrite forallb_forall in H.
  specialize (H c). rewrite Hhd in H. discriminate H.
  apply in_rev. rewrite rev_involutive. by left.
Qed.

Lemma streq_true (s t : jsstring) : streq s t = true <-> s = t.
Proof. unfold streq. apply bool_decide_eq_true. Qed.

Lemma streq_false (s t : jsstring) : streq s t = false <-> s <> t.
Proof. unfold streq. apply bool_decide_eq_false. Qed.

Lemma streq_refl (s : jsstring) : streq s s = true.
Proof. by apply streq_true. Qed.

End Strings.

(* ------------------------------------------------------------------------ *)
(** ** Context injection on a blank transcript *)
(* ------------------------------------------------------------------------ *)

(** C10. For every transcript that is empty or consists only of whitespace,
    and whatever the retrieval endpoint would answer, [injectContext] on an
    initialised client resolves at once and leaves the whole page state as it
    was: its call log gains no entry (no query to the retrieval endpoint, no
    user message, no response creation) and [avatarState] and its pending
    timer are untouched. *)
Theorem injectContext_blank_is_noop
    (net : FetchOutcome) (transcript : jsstring) (p : Page) (c : RealtimeClient) :
  clientRef p = Some c ->
  blank transcript = true ->
  injectContext net transcript p = (p, Resolved tt)
  /\ newCalls p (stateOf (injectContext net transcript p)) = []
  /\ avatarState (stateOf (injectContext net transcript p)) = avatarState p.
Proof.
  intros Hc Hb.
  assert (E : injectContext net transcript p = (p, Resolved tt)).
  { unfold injectContext. run. rewrite Hc. cbn. by rewrite (trim_blank _ Hb). }
  rewrite E. split; [done|]. split; [|done].
  unfold newCalls, stateOf. cbn. by rewrite drop_all.
Qed.

Lemma injectContext_blank_is_noop_witness :
  let p := initialPage (Some connectedClient) in
  let transcript := js "  " ++ [9; 10; 160; 8202; 65279]%N in
  injectContext (FetchRejected (js "offline")) transcript p = (p, Resolved tt)
  /\ newCalls p (stateOf (injectContext (FetchRejected (js "offline")) transcript p)) = []
  /\ avatarState (stateOf (injectContext (FetchRejected (js "offline")) transcript p))
     = avatarState p.
Proof.
  apply (injectContext_blank_is_noop _ _ _ connectedClient); reflexivity.
Defined.

(* ------------------------------------------------------------------------ *)
(** ** The memory tool *)
(* ------------------------------------------------------------------------ *)

(** C9. For every page state (so every memory map) and all arguments
    [key], [value], the [set_memory] handler resolves with [{ ok: true }],
    the resulting map binds [key] to [value] whether or not [key] was bound
    before, every other key keeps its binding (or its absence), and nothing
    else in the page changes. *)
Theorem set_memory_binds_and_frames (p : Page) (key : jsstring) (value : json) :
  let r := set_memory key value p in
  completionOf r = Resolved (JObj [(js "ok", JBool true)])
  /\ memoryKv (stateOf r) !! key = Some value
  /\ (forall k : jsstring, k <> key -> memoryKv (stateOf r) !! k = memoryKv p !! k)
  /\ stateOf r = with_memoryKv (<[key := value]> (memoryKv p)) p.
Proof.
  unfold set_memory. run. repeat split.
  - apply lookup_insert_eq.
  - intros k Hk. by apply lookup_insert_ne.
Qed.

Lemma set_memory_binds_and_frames_witness :
  let p := with_memoryKv {[ js "favorite_color" := JStr (js "red");
                            js "name" := JStr (js "Ada") ]}
             (initialPage (Some connectedClient)) in
  let r := set_memory (js "favorite_color") (JStr (js "blue")) p in
  completionOf r = Resolved (JObj [(js "ok", JBool true)])
  /\ memoryKv (stateOf r) !! js "favorite_color" = Some (JStr (js "blue"))
  /\ memoryKv (stateOf r) !! js "name" = Some (JStr (js "Ada")).
Proof.
  pose proof (set_memory_binds_and_frames
                (with_memoryKv {[ js "favorite_color" := JStr (js "red");
                                  js "name" := JStr (js "Ada") ]}
                   (initialPage (Some connectedClient)))
                (js "favorite_color") (JStr (js "blue"))) as (H1 & H2 & H3 & _).
  split; [exact H1|]. split; [exact H2|].
  rewrite H3; [|discriminate]. vm_compute. reflexivity.
Defined.

(* ------------------------------------------------------------------------ *)
(** ** The event log *)
(* ------------------------------------------------------------------------ *)

Section EventLog.

Implicit Types (log prev : list RealtimeEvent) (e rtEvent newest : RealtimeEvent).

Lemma take_snoc_init prev e : take (length (prev ++ [e]) - 1)%nat (prev ++ [e]) = prev.
Proof.
  rewrite length_app. cbn. replace (length prev + 1 - 1)%nat with (length prev) by lia.
  by rewrite take_app_length.
Qed.

(** The updater on a log with newest entry [newest], same type: the entry is
    replaced by its bumped copy. *)
Lemma logRealtimeEvent_same prev newest rtEvent :
  type (event newest) = type (event rtEvent) ->
  logRealtimeEvent rtEvent (prev ++ [newest]) = prev ++ [bump newest].
Proof.
  intros H. unfold logRealtimeEvent. rewrite last_snoc.
  apply streq_true in H. rewrite H. by rewrite take_snoc_init.
Qed.

(** The updater on a log whose newest entry has another type: the event is
    appended and nothing before it changes. *)
Lemma logRealtimeEvent_other prev newest rtEvent :
  type (event newest) <> type (event rtEvent) ->
  logRealtimeEvent rtEvent (prev ++ [newest]) = prev ++ [newest; rtEvent].
Proof.
  intros H. unfold logRealtimeEvent. rewrite last_snoc.
  apply streq_false in H. rewrite H. by rewrite <- app_assoc.
Qed.

Lemma logRealtimeEvent_empty rtEvent : logRealtimeEvent rtEvent [] = [rtEvent].
Proof. reflexivity. Qed.

Lemma logAll_snoc evs rtEvent prev :
  logAll (evs ++ [rtEvent]) prev = logRealtimeEvent rtEvent (logAll evs prev).
Proof. unfold logAll. by rewrite fold_left_app. Qed.

(** The code's fold and the specification's reading by runs agree. *)
Lemma logAll_specLogFrom evs prev cur :
  logAll evs (prev ++ [cur]) = prev ++ specLogFrom cur evs.
Proof.
  revert prev cur. induction evs as [|e evs IH]; intros prev cur; [done|].
  cbn [specLogFrom]. change (logAll (e :: evs) (prev ++ [cur]))
    with (logAll evs (logRealtimeEvent e (prev ++ [cur]))).
  destruct (streq (type (event cur)) (type (event e))) eqn:E.
  - apply streq_true in E. rewrite (logRealtimeEvent_same _ _ _ E). apply IH.
  - apply streq_false in E. rewrite (logRealtimeEvent_other _ _ _ E).
    change (prev ++ [cur; e]) with (prev ++ [cur] ++ [e]). rewrite app_assoc.
    rewrite IH. by rewrite <- app_assoc.
Qed.

Lemma logAll_specLog evs : logAll evs [] = specLog evs.
Proof.
  destruct evs as [|e evs]; [done|].
  change (logAll (e :: evs) []) with (logAll evs ([] ++ [e])).
  by rewrite logAll_specLogFrom.
Qed.

Lemma bump_type e : type (event (bump e)) = type (event e).
Proof. reflexivity. Qed.

Lemma neighboursDiffer_snoc prev newest rtEvent :
  neighboursDiffer (prev ++ [newest]) ->
  type (event newest) <> type (event rtEvent) ->
  neighboursDiffer (prev ++ [newest; rtEvent]).
Proof.
  intros Hd Hne i e1 e2 H1 H2.
  change (prev ++ [newest; rtEvent]) with (prev ++ [newest] ++ [rtEvent]) in *.
  rewrite app_assoc in H1, H2.
  destruct (decide (S i < length (prev ++ [newest]))%nat) as [Hlt|Hge].
  - rewrite lookup_app_l in H1 by lia. rewrite lookup_app_l in H2 by lia. eauto.
  - assert (Hlen : length (prev ++ [newest]) = S (length prev))
      by (rewrite length_app; cbn; lia).
    assert (S i < length ((prev ++ [newest]) ++ [rtEvent]))%nat
      by (eapply lookup_lt_Some; eauto).
    rewrite length_app in H. cbn in H.
    assert (i = length prev) by lia. subst i.
    rewrite lookup_app_l in H1 by lia.
    rewrite lookup_app_r in H1 by lia.
    replace (length prev - length prev)%nat with 0%nat in H1 by lia.
    rewrite lookup_app_r in H2 by lia.
    replace (S (length prev) - length (prev ++ [newest]))%nat with 0%nat in H2 by lia.
    cbn in H1, H2. by simplify_eq.
Qed.

Lemma neighboursDiffer_bump prev newest :
  neighboursDiffer (prev ++ [newest]) -> neighboursDiffer (prev ++ [bump newest]).
Proof.
  intros Hd i e1 e2 H1 H2.
  assert (S i < length (prev ++ [bump newest]))%nat by (eapply lookup_lt_Some; eauto).
  rewrite length_app in H. cbn in H.
  rewrite lookup_app_l in H1 by lia.
  destruct (decide (S i = length prev)) as [Heq|Hne].
  - rewrite lookup_app_r in H2 by lia.
    replace (S i - length prev)%nat with 0%nat in H2 by lia. cbn in H2.
    inversion H2; subst e2. rewrite bump_type.
    apply (Hd i e1 newest).
    + by rewrite lookup_app_l by lia.
    + rewrite lookup_app_r by lia.
      by replace (S i - length prev)%nat with 0%nat by lia.
  - rewrite lookup_app_l in H2 by lia.
    apply (Hd i e1 e2); by rewrite lookup_app_l by lia.
Qed.

Lemma logRealtimeEvent_neighboursDiffer log rtEvent :
  neighboursDiffer log -> neighboursDiffer (logRealtimeEvent rtEvent log).
Proof.
  intros Hd. destruct (last log) as [newest|] eqn:El.
  2:{ apply last_None in El. subst log. intros i e1 e2 H1 H2. cbn in H2. by destruct i. }
  apply last_Some in El. destruct El as [prev ->].
  - destruct (decide (type (event newest) = type (event rtEvent))) as [E|E].
    + rewrite (logRealtimeEvent_same _ _ _ E). by apply neighboursDiffer_bump.
    + rewrite (logRealtimeEvent_other _ _ _ E). by apply neighboursDiffer_snoc.
Qed.

Lemma logAll_neighboursDiffer evs : neighboursDiffer (logAll evs []).
Proof.
  induction evs as [|e evs IH] using rev_ind.
  - intros i e1 e2 H1. by destruct i.
  - rewrite logAll_snoc. by apply logRealtimeEvent_neighboursDiffer.
Qed.

End EventLog.

Lemma setAvatarStateSafely_realtimeEvents (s : AvatarState) (ms : Z) (p : Page) :
  realtimeEvents (setAvatarStateSafely s ms p) = realtimeEvents p.
Proof.
  unfold setAvatarStateSafely. destruct (0 <? ms), (avatarTimeoutRef p); reflexivity.
Qed.

(** The handler puts every event that is not a completed transcription
    through the updater, whatever branch drives the avatar. *)
Lemma onRealtimeEvent_logs (net : FetchOutcome) (rtEvent : RealtimeEvent) (p : Page) :
  type (event rtEvent) <> transcriptionCompleted ->
  completionOf (onRealtimeEvent net rtEvent p) = Resolved tt
  /\ realtimeEvents (stateOf (onRealtimeEvent net rtEvent p))
     = logRealtimeEvent rtEvent (realtimeEvents p).
Proof.
  intros Ht. apply streq_false in Ht. unfold onRealtimeEvent. rewrite Ht.
  rewrite orb_false_r.
  set (t := type (event rtEvent)).
  destruct (streq t (js "input_audio_buffer.commit")),
    (startsWith t (js "response.") || startsWith t (js "conversation.item.output")),
    (streq t (js "response.completed"));
    run; try done; unfold setAvatarStateSafely; cbn;
    by destruct (avatarTimeoutRef p).
Qed.

(** C1. For every sequence [evs] of inbound realtime events logged from the
    empty log and every further event [rtEvent]: if the newest entry has the
    type of [rtEvent], the log after [rtEvent] is the old log with that entry
    replaced by an entry with the same time, source and payload whose
    occurrence count is the old count plus one (a missing count reads as 0),
    and the length is unchanged; if the newest entry has another type, or the
    log is empty, [rtEvent] is appended, no earlier entry changes, and the
    length grows by exactly one; and no two neighbouring entries of the
    resulting log have the same type. *)
Theorem event_log_coalesces (evs : list RealtimeEvent) (rtEvent : RealtimeEvent) :
  let log := logAll evs [] in
  let log' := logAll (evs ++ [rtEvent]) [] in
  (forall newest : RealtimeEvent,
      last log = Some newest ->
      type (event newest) = type (event rtEvent) ->
      log' = take (length log - 1)%nat log
               ++ [{| time := time newest;
                      source := source newest;
                      count := Some (default 0%nat (count newest) + 1)%nat;
                      event := event newest |}]
      /\ (count <$> last log') = Some (Some (default 0%nat (count newest) + 1)%nat)
      /\ length log' = length log)
  /\ (forall newest : RealtimeEvent,
      last log = Some newest ->
      type (event newest) <> type (event rtEvent) ->
      log' = log ++ [rtEvent] /\ length log' = S (length log))
  /\ (last log = None -> log' = [rtEvent] /\ length log' = S (length log))
  /\ neighboursDiffer log'.
Proof.
  cbn zeta. rewrite logAll_snoc. split; [|split; [|split]].
  - intros newest Hl Ht. apply last_Some in Hl as [prev Hp]. rewrite Hp.
    rewrite (logRealtimeEvent_same _ _ _ Ht), take_snoc_init, !length_app.
    rewrite last_snoc. done.
  - intros newest Hl Ht. apply last_Some in Hl as [prev Hp]. rewrite Hp.
    rewrite (logRealtimeEvent_other _ _ _ Ht), !length_app. cbn.
    split; [by rewrite <- app_assoc | lia].
  - intros Hl. apply last_None in Hl. by rewrite Hl.
  - apply logRealtimeEvent_neighboursDiffer, logAll_neighboursDiffer.
Qed.

Lemma event_log_coalesces_witness :
  let delta := serverEvent "response.audio.delta" in
  let created := serverEvent "conversation.item.created" in
  logAll ([created; delta; delta] ++ [delta]) []
    = [created;
       {| time := time delta; source := source delta;
          count := Some 2%nat; event := event delta |}]
  /\ (count <$> logAll ([created; delta; delta] ++ [delta]) [])
    = [None; Some 2%nat]
  /\ logAll ([created; delta; delta] ++ [created]) []
    = [created;
       {| time := time delta; source := source delta;
          count := Some 1%nat; event := event delta |};
       created]
  /\ logAll ([] ++ [delta]) [] = [delta].
Proof.
  pose proof (event_log_coalesces
                [serverEvent "conversation.item.created";
                 serverEvent "response.audio.delta";
                 serverEvent "response.audio.delta"]
                (serverEvent "response.audio.delta")) as (Hsame & _ & _ & _).
  pose proof (event_log_coalesces
                [serverEvent "conversation.item.created";
                 serverEvent "response.audio.delta";
                 serverEvent "response.audio.delta"]
                (serverEvent "conversation.item.created")) as (_ & Hother & _ & _).
  pose proof (event_log_coalesces [] (serverEvent "response.audio.delta"))
    as (_ & _ & Hempty & _).
  pose proof (Hsame {| time := time (serverEvent "response.audio.delta");
                       source := source (serverEvent "response.audio.delta");
                       count := Some 1%nat;
                       event := event (serverEvent "response.audio.delta") |}
                eq_refl eq_refl) as (Hlog & _ & _).
  split; [|split; [|split]].
  - refine (eq_trans Hlog _). reflexivity.
  - refine (eq_trans (f_equal (fmap count) Hlog) _). reflexivity.
  - refine (eq_trans (proj1 (Hother
        {| time := time (serverEvent "response.audio.delta");
           source := source (serverEvent "response.audio.delta");
           count := Some 1%nat;
           event := event (serverEvent "response.audio.delta") |} _ _)) _);
      [reflexivity | vm_compute; discriminate | reflexivity].
  - exact (proj1 (Hempty eq_refl)).
Defined.

(** The log the code builds is the log the specification describes: the
    sequence read by maximal runs of equal type, one entry per run. *)
Lemma realtimeEvents_refines_coalesce (evs : list RealtimeEvent) :
  logAll evs [] = specLog evs.
Proof. apply logAll_specLog. Qed.

(* ------------------------------------------------------------------------ *)
(** ** The avatar state machine *)
(* ------------------------------------------------------------------------ *)

Section Avatar.

Implicit Types (p : Page) (s : AvatarState) (ms : Z) (h : positive).

Lemma timersOk_initial (c : option RealtimeClient) : timersOk (initialPage c).
Proof.
  split; cbn.
  - intros h [x Hx]. by rewrite lookup_empty in Hx.
  - discriminate.
Qed.

(** Clearing the handle the ref holds leaves no timer pending. *)
Lemma timersOk_clear p h :
  timersOk p -> avatarTimeoutRef p = Some h -> delete h (timers p) = ∅.
Proof.
  intros [Hone _] Hr. apply map_eq. intros k. rewrite lookup_empty.
  destruct (decide (k = h)) as [->|Hne]; [apply lookup_delete_eq|].
  rewrite lookup_delete_ne by done.
  destruct (timers p !! k) eqn:E; [|done].
  assert (avatarTimeoutRef p = Some k) by (apply Hone; eauto). congruence.
Qed.

Lemma timersOk_no_ref p : timersOk p -> avatarTimeoutRef p = None -> timers p = ∅.
Proof.
  intros [Hone _] Hr. apply map_eq. intros k. rewrite lookup_empty.
  destruct (timers p !! k) eqn:E; [|done].
  assert (avatarTimeoutRef p = Some k) by (apply Hone; eauto). congruence.
Qed.

(** A delayed transition supersedes the pending one: after
    [setAvatarStateSafely s ms] with a positive hold the only pending timer
    is the new one, and the avatar has not moved yet. *)
Lemma setAvatarStateSafely_hold p s ms :
  timersOk p -> 0 < ms ->
  timers (setAvatarStateSafely s ms p) = {[ nextTimer p := (s, ms) ]}
  /\ avatarTimeoutRef (setAvatarStateSafely s ms p) = Some (nextTimer p)
  /\ avatarState (setAvatarStateSafely s ms p) = avatarState p.
Proof.
  intros Hok Hms. unfold setAvatarStateSafely.
  assert (E : (0 <? ms) = true) by lia. rewrite E.
  destruct (avatarTimeoutRef p) as [h|] eqn:Hr; cbn.
  - by rewrite (timersOk_clear p h Hok Hr).
  - by rewrite (timersOk_no_ref p Hok Hr).
Qed.

(** An immediate transition cancels the pending one and moves the avatar. *)
Lemma setAvatarStateSafely_now p s ms :
  timersOk p -> ms <= 0 ->
  timers (setAvatarStateSafely s ms p) = ∅
  /\ avatarTimeoutRef (setAvatarStateSafely s ms p) = None
  /\ avatarState (setAvatarStateSafely s ms p) = s.
Proof.
  intros Hok Hms. unfold setAvatarStateSafely.
  assert (E : (0 <? ms) = false) by lia. rewrite E.
  destruct (avatarTimeoutRef p) as [h|] eqn:Hr; cbn.
  - by rewrite (timersOk_clear p h Hok Hr).
  - by rewrite (timersOk_no_ref p Hok Hr).
Qed.

Lemma setAvatarStateSafely_timersOk p s ms :
  timersOk p -> timersOk (setAvatarStateSafely s ms p).
Proof.
  intros Hok. destruct (Z.ltb_spec 0 ms) as [Hms|Hms].
  - destruct (setAvatarStateSafely_hold p s ms Hok Hms) as (Ht & Hr & _).
    split.
    + intros h [x Hx]. rewrite Ht in Hx.
      apply lookup_singleton_Some in Hx as [<- _]. done.
    + intros h Hh. rewrite Hr in Hh. inversion Hh; subst h.
      unfold setAvatarStateSafely.
      assert (E : (0 <? ms) = true) by lia. rewrite E.
      destruct (avatarTimeoutRef p); cbn; lia.
  - destruct (setAvatarStateSafely_now p s ms Hok Hms) as (Ht & Hr & _).
    split.
    + intros h [x Hx]. rewrite Ht in Hx. by rewrite lookup_empty in Hx.
    + intros h Hh. rewrite Hr in Hh. discriminate.
Qed.

(** A superseded hold never fires: once a later [setAvatarStateSafely] ran,
    the browser running the old handle changes nothing. *)
Lemma superseded_hold_never_fires p s ms s' ms' :
  timersOk p -> 0 < ms ->
  let p1 := setAvatarStateSafely s ms p in
  let p2 := setAvatarStateSafely s' ms' p1 in
  timerFires (nextTimer p) p2 = p2.
Proof.
  intros Hok Hms p1 p2.
  destruct (setAvatarStateSafely_hold p s ms Hok Hms) as (Ht & Hr & _).
  fold p1 in Ht, Hr.
  assert (Hok1 : timersOk p1) by by apply setAvatarStateSafely_timersOk.
  assert (Hn : nextTimer p1 = Pos.succ (nextTimer p)).
  { unfold p1, setAvatarStateSafely.
    assert (E : (0 <? ms) = true) by lia. rewrite E.
    by destruct (avatarTimeoutRef p). }
  unfold timerFires.
  assert (Hl : timers p2 !! nextTimer p = None).
  { destruct (Z.ltb_spec 0 ms') as [Hms'|Hms'].
    - destruct (setAvatarStateSafely_hold p1 s' ms' Hok1 Hms') as (Ht2 & _).
      fold p2 in Ht2. rewrite Ht2, Hn. apply lookup_singleton_ne. lia.
    - destruct (setAvatarStateSafely_now p1 s' ms' Hok1 Hms') as (Ht2 & _).
      fold p2 in Ht2. rewrite Ht2. apply lookup_empty. }
  by rewrite Hl.
Qed.

Lemma timerFires_timersOk p h : timersOk p -> timersOk (timerFires h p).
Proof.
  intros [Hone Hfresh]. unfold timerFires.
  destruct (timers p !! h) as [[s ms]|] eqn:E; [|done].
  split; cbn; [|done].
  intros k [x Hx]. apply Hone.
  destruct (decide (k = h)) as [->|Hne]; [by rewrite lookup_delete_eq in Hx|].
  rewrite lookup_delete_ne in Hx by done. eauto.
Qed.

(** A hold towards [idle] is pending; the avatar is told to talk; the old
    timer then has nothing left to run. *)
Example hold_superseded_by_talk :
  let p := pageHolding idle 500 in
  timers p = {[ 1%positive := (idle, 500) ]}
  /\ avatarState (timerFires 1 p) = idle
  /\ timers (setAvatarStateSafely talk 0 p) = ∅
  /\ avatarState (timerFires 1 (setAvatarStateSafely talk 0 p)) = talk.
Proof. by vm_compute. Qed.

End Avatar.

(* ------------------------------------------------------------------------ *)
(** ** Classification of realtime events *)
(* ------------------------------------------------------------------------ *)

(** The branch taken for [response.completed] is the one for every type that
    starts with [response.]: the test placed after it is never reached. *)
Lemma response_completed_prefix :
  startsWith (js "response.completed") (js "response.") = true
  /\ streq (js "response.completed") (js "input_audio_buffer.commit") = false
  /\ streq (js "response.completed") transcriptionCompleted = false.
Proof. by vm_compute. Qed.

(** C3, as the code runs it. For every realtime event of type
    [response.completed], whatever the page state, the handler sets
    [avatarState] to [talk] at once and leaves no hold scheduled: the ref is
    empty, no handle was taken from the browser and no timer was added. The
    delayed return to [idle] that the handler's third branch spells out is
    not what happens. *)
Theorem response_completed_talks_without_hold
    (net : FetchOutcome) (rtEvent : RealtimeEvent) (p : Page) :
  type (event rtEvent) = js "response.completed" ->
  let r := onRealtimeEvent net rtEvent p in
  completionOf r = Resolved tt
  /\ avatarState (stateOf r) = talk
  /\ avatarTimeoutRef (stateOf r) = None
  /\ nextTimer (stateOf r) = nextTimer p
  /\ timers (stateOf r) ⊆ timers p.
Proof.
  intros Ht. destruct response_completed_prefix as (Hp & Hc & Htc).
  unfold onRealtimeEvent. rewrite Ht, Hp, Hc, Htc. run.
  unfold setAvatarStateSafely. cbn.
  destruct (avatarTimeoutRef p) as [h|] eqn:Hr; cbn; repeat split; try done.
  apply delete_subseteq.
Qed.

Lemma response_completed_talks_without_hold_witness :
  let r := onRealtimeEvent (FetchRejected []) (serverEvent "response.completed")
             (initialPage (Some connectedClient)) in
  completionOf r = Resolved tt
  /\ avatarState (stateOf r) = talk
  /\ avatarTimeoutRef (stateOf r) = None
  /\ nextTimer (stateOf r) = 1%positive
  /\ timers (stateOf r) ⊆ ∅.
Proof.
  apply (response_completed_talks_without_hold (FetchRejected [])
           (serverEvent "response.completed") (initialPage (Some connectedClient))).
  reflexivity.
Defined.

(* ------------------------------------------------------------------------ *)
(** ** Interruption *)
(* ------------------------------------------------------------------------ *)

Lemma newCalls_app (p p' : Page) (cs : list Call) :
  calls p' = calls p ++ cs -> newCalls p p' = cs.
Proof. intros H. unfold newCalls. rewrite H. apply drop_app_length. Qed.

Lemma setAvatarStateSafely_calls (s : AvatarState) (ms : Z) (p : Page) :
  calls (setAvatarStateSafely s ms p) = calls p.
Proof.
  unfold setAvatarStateSafely. destruct (0 <? ms), (avatarTimeoutRef p); reflexivity.
Qed.

Lemma setAvatarStateSafely_idle_now (p : Page) :
  avatarState (setAvatarStateSafely idle 0 p) = idle
  /\ avatarTimeoutRef (setAvatarStateSafely idle 0 p) = None.
Proof.
  unfold setAvatarStateSafely. cbn.
  destruct (avatarTimeoutRef p) eqn:E; cbn; auto.
Qed.

(** C6. For every [conversation.interrupted] event the handler first stops
    playback, then, when a track was playing (the player returned its id,
    a non-empty string, and the sample offset of the stop instant), sends
    exactly one cancellation carrying that very pair, and sets [avatarState]
    to [idle] with no hold left pending; when no track was playing, and so no
    trackId came back, it sends no cancellation. *)
Theorem interruption_cancels_what_was_heard (p : Page) :
  let r := onConversationInterrupted p in
  completionOf r = Resolved tt
  /\ wavStreamPlayer (stateOf r) = None
  /\ avatarState (stateOf r) = idle
  /\ avatarTimeoutRef (stateOf r) = None
  /\ (forall (id : jsstring) (samples : Z),
        wavStreamPlayer p = Some (id, samples) -> id <> [] ->
        newCalls p (stateOf r) = [PlayerInterrupt; CancelResponse id samples]
        /\ countCalls isCancel (newCalls p (stateOf r)) = 1%nat)
  /\ (wavStreamPlayer p = None ->
        newCalls p (stateOf r) = [PlayerInterrupt]
        /\ countCalls isCancel (newCalls p (stateOf r)) = 0%nat).
Proof.
  page p. unfold onConversationInterrupted. run.
  destruct pl as [[[|ch id] samples]|]; run;
    unfold setAvatarStateSafely; cbn; destruct atr; cbn;
    repeat split; try done; intros; simplify_eq; try done; new_calls.
Qed.

Lemma interruption_cancels_what_was_heard_witness :
  let p := pagePlaying "item_A1" 4800 in
  let q := initialPage (Some connectedClient) in
  newCalls p (stateOf (onConversationInterrupted p))
    = [PlayerInterrupt; CancelResponse (js "item_A1") 4800]
  /\ avatarState (stateOf (onConversationInterrupted p)) = idle
  /\ newCalls q (stateOf (onConversationInterrupted q)) = [PlayerInterrupt].
Proof.
  pose proof (interruption_cancels_what_was_heard (pagePlaying "item_A1" 4800))
    as (_ & _ & Hidle & _ & Hplay & _).
  pose proof (interruption_cancels_what_was_heard (initialPage (Some connectedClient)))
    as (_ & _ & _ & _ & _ & Hnone).
  split; [|split].
  - apply (Hplay (js "item_A1") 4800); [reflexivity | vm_compute; discriminate].
  - exact Hidle.
  - apply Hnone. reflexivity.
Defined.

(** Pressing the button goes through the same interruption before capture
    starts: playback is stopped first, the track that was playing is
    cancelled at its stop offset, then the recorder is started. *)
Lemma startRecording_interrupts_then_records (p : Page) (c : RealtimeClient) :
  clientRef p = Some c ->
  let r := startRecording p in
  completionOf r = Resolved tt
  /\ isRecording (stateOf r) = true
  /\ wavRecorder (stateOf r) = recording
  /\ wavStreamPlayer (stateOf r) = None
  /\ avatarState (stateOf r) = idle
  /\ newCalls p (stateOf r)
     = PlayerInterrupt
       :: match wavStreamPlayer p with
          | Some (id, samples) => if truthy id then [CancelResponse id samples] else []
          | None => []
          end ++ [RecorderRecord].
Proof.
  intros Hc. page p. subst cr. unfold startRecording. run.
  destruct pl as [[[|ch id] samples]|]; run;
    unfold setAvatarStateSafely; cbn; destruct atr; cbn;
    repeat split; new_calls.
Qed.

(* ------------------------------------------------------------------------ *)
(** ** Push-to-talk: releasing the button *)
(* ------------------------------------------------------------------------ *)

Lemma byteLength_pos_iff (buf : list Z) : (0 <? byteLength buf) = false <-> buf = [].
Proof.
  unfold byteLength. destruct buf; cbn [length]; split; intros H; try done; lia.
Qed.

(** C7, against the claim as worded: releasing the button before any frame
    was buffered pauses capture and sends no commit at all. *)
Lemma stopRecording_empty_buffer_sends_no_commit :
  clientRef pageTalking = Some connectedClient
  /\ turn_detection connectedClient = None
  /\ completionOf (stopRecording pageTalking) = Resolved tt
  /\ newCalls pageTalking (stateOf (stopRecording pageTalking)) = [RecorderPause]
  /\ countCalls isCommit (newCalls pageTalking (stateOf (stopRecording pageTalking)))
     <> 1%nat.
Proof. vm_compute. repeat split; discriminate. Qed.

(** C7, amended. For every call of [stopRecording] on an initialised client
    (whatever the mode): the recording flag is dropped, capture is paused
    first, then the buffered input audio, if there is any, is flushed as
    exactly one commit followed by its queueing, while an empty buffer is not
    committed; [avatarState] is set to [think] with no hold pending, and
    after the call the local input audio buffer is empty. *)
Theorem stopRecording_flushes_buffer (p : Page) (c : RealtimeClient) :
  clientRef p = Some c ->
  let r := stopRecording p in
  completionOf r = Resolved tt
  /\ isRecording (stateOf r) = false
  /\ wavRecorder (stateOf r) = recorderPause (wavRecorder p)
  /\ wavRecorder (stateOf r) <> recording
  /\ newCalls p (stateOf r)
     = RecorderPause ::
       (if 0 <? byteLength (inputAudioBuffer c)
        then [RealtimeSend (js "input_audio_buffer.commit");
              QueueInputAudio (inputAudioBuffer c)]
        else [])
  /\ countCalls isCommit (newCalls p (stateOf r))
     = (if 0 <? byteLength (inputAudioBuffer c) then 1%nat else 0%nat)
  /\ (inputAudioBuffer <$> clientRef (stateOf r)) = Some []
  /\ avatarState (stateOf r) = think
  /\ avatarTimeoutRef (stateOf r) = None.
Proof.
  intros Hc. page p. subst cr. unfold stopRecording. run.
  destruct (0 <? byteLength (inputAudioBuffer c)) eqn:Hb; run;
    unfold setAvatarStateSafely; cbn; destruct atr; cbn;
    repeat split; try (by destruct rec); try new_calls;
    try (apply byteLength_pos_iff in Hb; by rewrite Hb).
Qed.

Lemma stopRecording_flushes_buffer_witness :
  let p := audioFrame [12; -7; 3] pageTalking in
  let r := stopRecording p in
  completionOf r = Resolved tt
  /\ wavRecorder (stateOf r) = paused
  /\ newCalls p (stateOf r)
     = [RecorderPause; RealtimeSend (js "input_audio_buffer.commit");
        QueueInputAudio [12; -7; 3]]
  /\ (inputAudioBuffer <$> clientRef (stateOf r)) = Some []
  /\ avatarState (stateOf r) = think.
Proof.
  pose proof (stopRecording_flushes_buffer (audioFrame [12; -7; 3] pageTalking)
                (setInputAudioBuffer [12; -7; 3] connectedClient) eq_refl)
    as (H1 & _ & H3 & _ & H5 & _ & H7 & H8 & _).
  split; [exact H1|]. split; [exact H3|]. split; [exact H5|].
  split; [exact H7|exact H8].
Defined.

(* ------------------------------------------------------------------------ *)
(** ** The turn-detection switch *)
(* ------------------------------------------------------------------------ *)

Lemma mode_literals :
  streq (js "none") (js "none") = true
  /\ streq (js "none") (js "server_vad") = false
  /\ streq (js "server_vad") (js "none") = false
  /\ streq (js "server_vad") (js "server_vad") = true.
Proof. by vm_compute. Qed.

(** C4, against the claim as worded: with capture active (the push-to-talk
    button held), a switch to automatic mode does not pause it first. The
    session is reconfigured and [record] is called on the recorder that is
    still delivering. *)
Lemma switch_to_automatic_does_not_pause :
  clientRef pageTalking = Some connectedClient
  /\ wavRecorder pageTalking = recording
  /\ newCalls pageTalking (stateOf (changeTurnEndType (js "server_vad") pageTalking))
     = [UpdateSessionTurnDetection (Some (js "server_vad")); RecorderRecord]
  /\ countCalls isPause
       (newCalls pageTalking (stateOf (changeTurnEndType (js "server_vad") pageTalking)))
     = 0%nat.
Proof. by vm_compute. Qed.

(** C4, amended. For every switch on an initialised client: a switch to
    manual pauses capture first if and only if the recorder is delivering,
    then applies the manual configuration, never resumes capture, and so
    leaves no capture running; a switch to automatic applies the automatic
    configuration without pausing and then starts capture exactly when the
    client is connected; either way the session carries the configuration of
    the new mode and the push-to-talk flag follows it. A
    manual-automatic-manual round trip from a page whose capture is paused
    ends with capture paused. *)
Theorem changeTurnEndType_sequence (p : Page) (c : RealtimeClient) :
  clientRef p = Some c ->
  let toManual := changeTurnEndType (js "none") p in
  let toAutomatic := changeTurnEndType (js "server_vad") p in
  let roundTrip := changeTurnEndType (js "none") (stateOf toAutomatic) in
  (completionOf toManual = Resolved tt
   /\ newCalls p (stateOf toManual)
      = (if bool_decide (wavRecorder p = recording) then [RecorderPause] else [])
        ++ [UpdateSessionTurnDetection None]
   /\ wavRecorder (stateOf toManual) <> recording
   /\ (turn_detection <$> clientRef (stateOf toManual)) = Some None
   /\ canPushToTalk (stateOf toManual) = true)
  /\ (completionOf toAutomatic = Resolved tt
   /\ newCalls p (stateOf toAutomatic)
      = UpdateSessionTurnDetection (Some (js "server_vad"))
        :: (if connected c then [RecorderRecord] else [])
   /\ wavRecorder (stateOf toAutomatic)
      = (if connected c then recording else wavRecorder p)
   /\ (turn_detection <$> clientRef (stateOf toAutomatic)) = Some (Some (js "server_vad"))
   /\ canPushToTalk (stateOf toAutomatic) = false)
  /\ (wavRecorder p = paused ->
      completionOf roundTrip = Resolved tt
      /\ wavRecorder (stateOf roundTrip) = paused
      /\ (turn_detection <$> clientRef (stateOf roundTrip)) = Some None).
Proof.
  intros Hc. page p. subst cr. destruct mode_literals as (Hnn & Hnv & Hvn & Hvv).
  unfold changeTurnEndType. run. rewrite Hnn, Hnv, Hvn, Hvv. cbn.
  split; [|split].
  - destruct rec; repeat (case_bool_decide; try done); run;
      repeat split; try done; new_calls.
  - destruct (connected c) eqn:Hk; run; repeat split; try done; new_calls.
  - intros ->. destruct (connected c) eqn:Hk; run; rewrite ?Hnn, ?Hnv; run;
      repeat (case_bool_decide; try done); run; rewrite ?Hk; run; done.
Qed.

Lemma changeTurnEndType_sequence_witness :
  let p := with_wavRecorder paused (initialPage (Some connectedClient)) in
  let toAutomatic := changeTurnEndType (js "server_vad") p in
  let roundTrip := changeTurnEndType (js "none") (stateOf toAutomatic) in
  wavRecorder (stateOf toAutomatic) = recording
  /\ newCalls p (stateOf toAutomatic)
     = [UpdateSessionTurnDetection (Some (js "server_vad")); RecorderRecord]
  /\ wavRecorder (stateOf roundTrip) = paused
  /\ newCalls (stateOf toAutomatic) (stateOf roundTrip)
     = [RecorderPause; UpdateSessionTurnDetection None].
Proof.
  pose proof (changeTurnEndType_sequence
                (with_wavRecorder paused (initialPage (Some connectedClient)))
                connectedClient eq_refl) as (_ & (_ & Hcalls & Hrec & _) & Htrip).
  pose proof (changeTurnEndType_sequence
                (stateOf (changeTurnEndType (js "server_vad")
                   (with_wavRecorder paused (initialPage (Some connectedClient)))))
                (setTurnDetection (Some (js "server_vad")) connectedClient) eq_refl)
    as ((_ & Hback & _) & _).
  split; [exact Hrec|]. split; [exact Hcalls|].
  split; [exact (proj1 (proj2 (Htrip eq_refl)))|exact Hback].
Defined.

(* ------------------------------------------------------------------------ *)
(** ** Context injection when the lookup fails *)
(* ------------------------------------------------------------------------ *)

Lemma transcription_literals :
  streq transcriptionCompleted (js "input_audio_buffer.commit") = false
  /\ streq transcriptionCompleted transcriptionCompleted = true.
Proof. by vm_compute. Qed.

(** C5, against the claim as worded: on a completed transcription whose
    lookup answers 500, or whose lookup cannot reach the network, the
    handler's promise rejects with that error and the event never reaches
    the event log, whereas the same event with a lookup that succeeds is
    logged. *)
Lemma retrieval_failure_is_not_swallowed :
  let p := initialPage (Some connectedClient) in
  let ev := transcribed "what is a derivative" in
  let answered := FetchResponse {| status := 200;
                     body := Some (JObj [(js "message", JStr (js "a rate of change"))]) |} in
  let failed := FetchResponse {| status := 500; body := None |} in
  let offline := FetchRejected (js "Failed to fetch") in
  completionOf (onRealtimeEvent failed ev p) = Rejected (HttpError 500)
  /\ realtimeEvents (stateOf (onRealtimeEvent failed ev p)) = []
  /\ completionOf (onRealtimeEvent offline ev p)
     = Rejected (NetworkError (js "Failed to fetch"))
  /\ realtimeEvents (stateOf (onRealtimeEvent offline ev p)) = []
  /\ completionOf (onRealtimeEvent answered ev p) = Resolved tt
  /\ realtimeEvents (stateOf (onRealtimeEvent answered ev p)) = [ev].
Proof. by vm_compute. Qed.

(** C5, amended. For every completed input transcription with a non-blank,
    well-formed transcript on an initialised client, a failure of the
    context lookup (network error, or a response that is not ok) is not
    caught: the handler's promise rejects with the lookup's error. Up to
    that point the handler has set [avatarState] to [think] and asked the
    retrieval endpoint, and nothing else: no user message is sent and no
    response is created, so no context is injected, and the step that would
    have recorded the event in the event log is not reached. *)
Theorem retrieval_failure_rejects_handler
    (net : FetchOutcome) (rtEvent : RealtimeEvent) (p : Page)
    (c : RealtimeClient) (e : JsError) :
  clientRef p = Some c ->
  type (event rtEvent) = transcriptionCompleted ->
  trim (transcript (event rtEvent)) <> [] ->
  wellFormedUTF16 (trim (transcript (event rtEvent))) = true ->
  lookupFailure net = Some e ->
  let r := onRealtimeEvent net rtEvent p in
  completionOf r = Rejected e
  /\ stateOf r
     = with_calls (calls p ++ [Fetch (ContextQuery (trim (transcript (event rtEvent))))])
         (setAvatarStateSafely think 0 p)
  /\ newCalls p (stateOf r) = [Fetch (ContextQuery (trim (transcript (event rtEvent))))]
  /\ realtimeEvents (stateOf r) = realtimeEvents p
  /\ avatarState (stateOf r) = think.
Proof.
  intros Hc Ht Hq Hw Hf. destruct transcription_literals as (Hcm & Htc).
  page p. subst cr.
  assert (E : onRealtimeEvent net rtEvent
                {| clientRef := Some c; avatarState := av; avatarTimeoutRef := atr;
                   realtimeEvents := evs; canPushToTalk := cpt; isRecording := isr;
                   memoryKv := mem; coords := co; marker := mk; wavRecorder := rec;
                   wavStreamPlayer := pl; timers := tm; nextTimer := nt; calls := cl |}
              = (with_calls (cl ++ [Fetch (ContextQuery (trim (transcript (event rtEvent))))])
                   (setAvatarStateSafely think 0
                      {| clientRef := Some c; avatarState := av; avatarTimeoutRef := atr;
                         realtimeEvents := evs; canPushToTalk := cpt; isRecording := isr;
                         memoryKv := mem; coords := co; marker := mk; wavRecorder := rec;
                         wavStreamPlayer := pl; timers := tm; nextTimer := nt; calls := cl |}),
                 Rejected e)).
  { unfold onRealtimeEvent, injectContext. rewrite Ht, Hcm, Htc. run.
    destruct (trim (transcript (event rtEvent))) as [|ch q] eqn:Eq; [done|].
    unfold setAvatarStateSafely. cbn.
    destruct atr; run; rewrite Hw; run;
      (destruct net as [reason|resp]; run;
       [ by inversion Hf
       | destruct (ok resp); run; [discriminate | by inversion Hf] ]). }
  rewrite E. unfold stateOf, completionOf. cbn.
  unfold setAvatarStateSafely. cbn. destruct atr; cbn; repeat split; new_calls.
Qed.

Lemma retrieval_failure_rejects_handler_witness :
  let p := initialPage (Some connectedClient) in
  let r := onRealtimeEvent (FetchResponse {| status := 503; body := None |})
             (transcribed "  explain limits ") p in
  completionOf r = Rejected (HttpError 503)
  /\ newCalls p (stateOf r) = [Fetch (ContextQuery (js "explain limits"))]
  /\ realtimeEvents (stateOf r) = []
  /\ avatarState (stateOf r) = think.
Proof.
  pose proof (retrieval_failure_rejects_handler
                (FetchResponse {| status := 503; body := None |})
                (transcribed "  explain limits ")
                (initialPage (Some connectedClient)) connectedClient (HttpError 503)
                eq_refl eq_refl) as H.
  destruct H as (H1 & _ & H3 & H4 & H5).
  - vm_compute. discriminate.
  - vm_compute. reflexivity.
  - vm_compute. reflexivity.
  - split; [exact H1|]. split; [exact H3|]. split; [exact H4|exact H5].
Defined.

(* ------------------------------------------------------------------------ *)
(** ** The weather tool *)
(* ------------------------------------------------------------------------ *)








(** A response that carries no forecast (the service's error document) makes
    the handler throw on [json.current.temperature_2m]; the dispatcher turns
    that into an error output as well. *)
Example get_weather_error_document :
  let p := initialPage (Some connectedClient) in
  let doc := JObj [(js "error", JBool true); (js "reason", JStr (js "out of range"))] in
  let net := FetchResponse {| status := 400; body := Some doc |} in
  completionOf (get_weather net (Qmake 1000 1) (Qmake 0 1) (js "nowhere") p)
    = Rejected NullishAccess
  /\ newCalls p (stateOf (callTool (get_weather net (Qmake 1000 1) (Qmake 0 1)
                                      (js "nowhere")) p))
     = [Fetch (Forecast (Qmake 1000 1) (Qmake 0 1));
        FunctionCallOutput (inl NullishAccess)].
Proof. by vm_compute. Qed.

(* ------------------------------------------------------------------------ *)
(** ** Where the credential goes *)
(* ------------------------------------------------------------------------ *)

Lemma LOCAL_RELAY_SERVER_URL_set (u : jsstring) :
  u <> [] -> LOCAL_RELAY_SERVER_URL (Some u) = u.
Proof. by destruct u. Qed.

(** C2. For every configuration in which a local relay URL is set (a
    non-empty string), and whatever API key the browser has stored or the
    user would type: a client is constructed, its options are exactly
    [{ url }] with that URL, carrying no API key and no permission to use one
    in the browser, so what the client is given does not depend on any key
    at all; on the relay side the entry point hands the process's
    [OPENAI_API_KEY] to the relay, which attaches it when it connects
    upstream, while what it sends back to the client is the upstream frames
    verbatim, the same whatever the credential is. *)
Theorem relay_url_keeps_key_off_client_leg
    (relayUrl : jsstring) (stored prompted : option jsstring) :
  relayUrl <> [] ->
  pageClientOptions (Some relayUrl) stored prompted
    = Some {| url := Some relayUrl; apiKey := None;
              dangerouslyAllowAPIKeyInBrowser := None |}
  /\ (forall key : jsstring,
        initClient relayUrl key
        = Some {| url := Some relayUrl; apiKey := None;
                  dangerouslyAllowAPIKeyInBrowser := None |})
  /\ (forall stored' prompted' : option jsstring,
        pageClientOptions (Some relayUrl) stored' prompted'
        = pageClientOptions (Some relayUrl) stored prompted)
  /\ (forall (env : RelayEnv) (fromClient fromUpstream : list jsstring),
        relayApiKey (relayMain env) = OPENAI_API_KEY env
        /\ outboundCredential (relayConnection (relayMain env) fromClient fromUpstream)
           = OPENAI_API_KEY env
        /\ toClient (relayConnection (relayMain env) fromClient fromUpstream)
           = fromUpstream)
  /\ (forall (env env' : RelayEnv) (fromClient fromUpstream : list jsstring),
        toClient (relayConnection (relayMain env) fromClient fromUpstream)
        = toClient (relayConnection (relayMain env') fromClient fromUpstream)).
Proof.
  intros Hu.
  assert (Hinit : forall key, initClient relayUrl key
                  = Some {| url := Some relayUrl; apiKey := None;
                            dangerouslyAllowAPIKeyInBrowser := None |}).
  { intros key. unfold initClient. destruct relayUrl; [done|].
    cbn. by rewrite orb_true_r. }
  assert (Hpage : forall s q, pageClientOptions (Some relayUrl) s q
                  = Some {| url := Some relayUrl; apiKey := None;
                            dangerouslyAllowAPIKeyInBrowser := None |}).
  { intros s q. unfold pageClientOptions.
    rewrite (LOCAL_RELAY_SERVER_URL_set _ Hu). apply Hinit. }
  split; [apply Hpage|]. split; [exact Hinit|].
  split; [intros; by rewrite !Hpage|]. split; [done|done].
Qed.

Lemma relay_url_keeps_key_off_client_leg_witness :
  let relayUrl := js "http://localhost:8081" in
  let env := {| OPENAI_API_KEY := Some (js "sk-secret"); PORT := None |} in
  pageClientOptions (Some relayUrl) (Some (js "sk-stored")) None
    = Some {| url := Some relayUrl; apiKey := None;
              dangerouslyAllowAPIKeyInBrowser := None |}
  /\ outboundCredential (relayConnection (relayMain env) [js "hello"] [js "hi"])
     = Some (js "sk-secret")
  /\ toClient (relayConnection (relayMain env) [js "hello"] [js "hi"]) = [js "hi"].
Proof.
  assert (Hu : js "http://localhost:8081" <> []) by (vm_compute; discriminate).
  pose proof (relay_url_keeps_key_off_client_leg (js "http://localhost:8081")
                (Some (js "sk-stored")) None Hu) as (H1 & _ & _ & H4 & _).
  split; [exact H1|].
  destruct (H4 {| OPENAI_API_KEY := Some (js "sk-secret"); PORT := None |}
              [js "hello"] [js "hi"]) as (_ & H5 & H6).
  split; [exact H5|exact H6].
Defined.

(** Without a relay URL the key does reach the client: the relay is what
    keeps it out of the browser's connection. *)
Lemma no_relay_url_hands_key_to_client (key : jsstring) :
  key <> [] ->
  pageClientOptions None (Some key) None
  = Some {| url := None; apiKey := Some key;
            dangerouslyAllowAPIKeyInBrowser := Some true |}.
Proof. by destruct key. Qed.

(* ======================================================================== *)
(** * Further properties of the page *)
(* ======================================================================== *)

(* ------------------------------------------------------------------------ *)
(** ** What the event log counts *)
(* ------------------------------------------------------------------------ *)

Section LogCounts.

Implicit Types (log prev : list RealtimeEvent) (e rtEvent : RealtimeEvent).

Lemma occurrences_app log1 log2 :
  occurrences (log1 ++ log2) = (occurrences log1 + occurrences log2)%nat.
Proof. unfold occurrences. apply sum_list_with_app. Qed.

Lemma occurrences_logRealtimeEvent rtEvent log :
  uncounted rtEvent ->
  occurrences (logRealtimeEvent rtEvent log) = S (occurrences log).
Proof.
  intros Hu. destruct (last log) as [newest|] eqn:El.
  - apply last_Some in El as [prev ->].
    destruct (decide (type (event newest) = type (event rtEvent))) as [E|E].
    + rewrite (logRealtimeEvent_same _ _ _ E). rewrite !occurrences_app.
      unfold occurrences, occurrencesOf, bump. cbn. lia.
    + rewrite (logRealtimeEvent_other _ _ _ E).
      change (prev ++ [newest; rtEvent]) with (prev ++ [newest] ++ [rtEvent]).
      rewrite !occurrences_app.
      unfold occurrences, occurrencesOf. cbn. rewrite Hu. cbn. lia.
  - apply last_None in El. subst log.
    unfold occurrences, occurrencesOf. cbn. rewrite Hu. reflexivity.
Qed.

Lemma length_logRealtimeEvent rtEvent log :
  (length log <= length (logRealtimeEvent rtEvent log) <= S (length log))%nat.
Proof.
  destruct (last log) as [newest|] eqn:El.
  - apply last_Some in El as [prev ->].
    destruct (decide (type (event newest) = type (event rtEvent))) as [E|E].
    + rewrite (logRealtimeEvent_same _ _ _ E). rewrite !length_app. cbn. lia.
    + rewrite (logRealtimeEvent_other _ _ _ E). rewrite !length_app. cbn. lia.
  - apply last_None in El. subst log. cbn. lia.
Qed.

(** X1. No event is lost in the log: for every sequence of events that
    arrive without a count, the occurrences the entries stand for (one for
    the entry, plus its count) add up to the number of events logged, and
    the log is never longer than the sequence. *)
Theorem event_log_accounts_for_every_event (evs : list RealtimeEvent) :
  Forall uncounted evs ->
  occurrences (logAll evs []) = length evs
  /\ (length (logAll evs []) <= length evs)%nat.
Proof.
  induction evs as [|e evs IH] using rev_ind; intros Hu; [done|].
  apply Forall_app in Hu as [Hevs He]. apply Forall_inv in He.
  destruct (IH Hevs) as [IHo IHl].
  rewrite logAll_snoc, length_app. cbn. split.
  - rewrite (occurrences_logRealtimeEvent _ _ He). lia.
  - pose proof (length_logRealtimeEvent e (logAll evs [])). lia.
Qed.

Lemma event_log_accounts_for_every_event_witness :
  let evs := [serverEvent "response.created"; serverEvent "response.audio.delta";
              serverEvent "response.audio.delta"; serverEvent "response.audio.delta";
              serverEvent "response.done"] in
  occurrences (logAll evs []) = 5%nat /\ (length (logAll evs []) <= 5)%nat.
Proof.
  apply (event_log_accounts_for_every_event
           [serverEvent "response.created"; serverEvent "response.audio.delta";
            serverEvent "response.audio.delta"; serverEvent "response.audio.delta";
            serverEvent "response.done"]).
  repeat constructor.
Defined.

Lemma iter_bump_count (n : nat) e :
  uncounted e -> Nat.iter (S n) bump e = with_count (Some (S n)) e.
Proof.
  intros Hu. induction n as [|n IHn].
  - cbn. unfold bump. by rewrite Hu.
  - change (Nat.iter (S (S n)) bump e) with (bump (Nat.iter (S n) bump e)).
    rewrite IHn. unfold bump, with_count. cbn. do 2 f_equal. lia.
Qed.

Lemma logAll_run_from (rest : list RealtimeEvent) e newest prev :
  type (event newest) = type (event e) ->
  Forall (fun x => type (event x) = type (event e)) rest ->
  logAll rest (prev ++ [newest]) = prev ++ [Nat.iter (length rest) bump newest].
Proof.
  revert newest. induction rest as [|x rest IH]; intros newest Ht Hrun; [done|].
  apply Forall_cons in Hrun as [Hx Hrest].
  change (logAll (x :: rest) (prev ++ [newest]))
    with (logAll rest (logRealtimeEvent x (prev ++ [newest]))).
  rewrite (logRealtimeEvent_same prev newest x) by congruence.
  rewrite (IH (bump newest)) by (by rewrite ?bump_type).
  cbn [length]. by rewrite Nat.iter_succ_r.
Qed.

(** X2. The count an entry shows is one less than the events it stands
    for, and the entry is the first event of its run: when an event [e]
    arrives without a count on an empty log and is followed by any events
    [rest] of its type, however else they differ from it and from one
    another, the log is a single entry with the time, the source and the
    payload of [e], whose count is the number of events that followed; with
    nothing following, it has no count. *)
Theorem run_of_events_shows_one_less (e : RealtimeEvent) (rest : list RealtimeEvent) :
  uncounted e ->
  Forall (fun x => type (event x) = type (event e)) rest ->
  logAll (e :: rest) []
  = [{| time := time e;
        source := source e;
        count := match rest with [] => None | _ :: _ => Some (length rest) end;
        event := event e |}].
Proof.
  intros Hu Hrun.
  change (logAll (e :: rest) []) with (logAll rest ([] ++ [e])).
  rewrite (logAll_run_from rest e e []) by done. cbn [app].
  destruct rest as [|x rest].
  - cbn. destruct e as [t s c ev]. unfold uncounted in Hu. cbn in Hu. by subst c.
  - cbn [length]. by rewrite (iter_bump_count (length rest) e Hu).
Qed.

Lemma run_of_events_shows_one_less_witness :
  let append (at_ : string) (said : string) : RealtimeEvent :=
    {| time := js at_; source := client; count := None;
       event := {| type := js "input_audio_buffer.append"; transcript := js said |} |} in
  logAll [append "00:01.00" "first"; append "00:01.25" "second";
          append "00:01.50" "third"; append "00:01.75" "fourth"] []
  = [{| time := js "00:01.00"; source := client; count := Some 3%nat;
        event := {| type := js "input_audio_buffer.append";
                    transcript := js "first" |} |}].
Proof.
  cbn zeta.
  refine (eq_trans
    (run_of_events_shows_one_less
       {| time := js "00:01.00"; source := client; count := None;
          event := {| type := js "input_audio_buffer.append";
                      transcript := js "first" |} |}
       [{| time := js "00:01.25"; source := client; count := None;
           event := {| type := js "input_audio_buffer.append";
                       transcript := js "second" |} |};
        {| time := js "00:01.50"; source := client; count := None;
           event := {| type := js "input_audio_buffer.append";
                       transcript := js "third" |} |};
        {| time := js "00:01.75"; source := client; count := None;
           event := {| type := js "input_audio_buffer.append";
                       transcript := js "fourth" |} |}]
       _ _) _).
  - reflexivity.
  - repeat constructor.
  - reflexivity.
Defined.

End LogCounts.

(* ------------------------------------------------------------------------ *)
(** ** Invariants of the reachable states *)
(* ------------------------------------------------------------------------ *)

Section Keeps.

Context {A B : Type} (P : Page -> Prop).

Lemma keeps_ret (a : A) : keeps P (mret a).
Proof. by intros p Hp. Qed.

Lemma keeps_throw (e : JsError) : keeps P (@throw A e).
Proof. by intros p Hp. Qed.

Lemma keeps_gets (f : Page -> A) : keeps P (gets f).
Proof. by intros p Hp. Qed.

Lemma keeps_modify (f : Page -> Page) :
  (forall p, P p -> P (f p)) -> keeps P (modify f).
Proof. intros Hf p Hp. by apply Hf. Qed.

Lemma keeps_bind (m : Async A) (f : A -> Async B) :
  keeps P m -> (forall a, keeps P (f a)) -> keeps P (m ≫= f).
Proof.
  intros Hm Hf p Hp. specialize (Hm p Hp).
  unfold mbind, Async_bind, stateOf in *.
  destruct (m p) as [p' [a|e]]; cbn in *; [by apply Hf | done].
Qed.

End Keeps.

Section CKeeps.

Context {A B : Type} (Q : Console -> Prop).

Lemma ckeeps_ret (a : A) : ckeeps Q (mret a).
Proof. by intros k Hk. Qed.

Lemma ckeeps_throw (e : JsError) : ckeeps Q (@cthrow A e).
Proof. by intros k Hk. Qed.

Lemma ckeeps_modify (f : Console -> Console) :
  (forall k, Q k -> Q (f k)) -> ckeeps Q (cmodify f).
Proof. intros Hf k Hk. by apply Hf. Qed.

Lemma ckeeps_bind (m : CAsync A) (f : A -> CAsync B) :
  ckeeps Q m -> (forall a, ckeeps Q (f a)) -> ckeeps Q (m ≫= f).
Proof.
  intros Hm Hf k Hk. specialize (Hm k Hk).
  unfold mbind, CAsync_bind in *.
  destruct (m k) as [k' [a|e]]; cbn in *; [by apply Hf | done].
Qed.

End CKeeps.

(** A property of the page part is kept by a lifted run that keeps it. *)
Lemma ckeeps_liftPage {A : Type} (P : Page -> Prop) (m : Async A) :
  keeps P m -> ckeeps (fun k => P (page k)) (liftPage m).
Proof. intros Hm k Hk. cbn. by apply Hm. Qed.

Lemma ckeeps_apply {A : Type} (Q : Console -> Prop) (m : CAsync A) (k : Console) :
  ckeeps Q m -> Q k -> Q (fst (m k)).
Proof. intros Hm. apply Hm. Qed.

(** Taking a run apart down to its state changes. *)
Ltac keeps_steps :=
  repeat first
    [ apply keeps_ret | apply keeps_throw | apply keeps_gets
    | apply keeps_bind; [|intros ?]
    | match goal with |- keeps _ (if ?b then _ else _) => destruct b end
    | match goal with |- keeps _ (match ?x with _ => _ end) => destruct x end ].

Ltac ckeeps_steps :=
  repeat first
    [ apply ckeeps_ret | apply ckeeps_throw
    | apply ckeeps_bind; [|intros ?]
    | match goal with |- ckeeps _ (if ?b then _ else _) => destruct b end
    | match goal with |- ckeeps _ (match ?x with _ => _ end) => destruct x end ].

Section TimersKept.

(** State changes that leave the timers alone, and the one that does not. *)
Ltac timers_change :=
  first [ apply keeps_modify; intros ? ?; by apply setAvatarStateSafely_timersOk
        | apply keeps_modify; intros ? H; exact H ].

Ltac timers_kept :=
  unfold onRealtimeEvent, onConversationInterrupted, startRecording, stopRecording,
    changeTurnEndType, set_memory, get_weather, member2, injectContext,
    cancelIfTrack, wavStreamPlayer_interrupt, wavRecorder_pause, wavRecorder_record,
    updateSession, updateClient, currentClient, fetch, responseJson, liftProp,
    getClient, getTurnDetectionType, call;
  keeps_steps; try timers_change.

Ltac console_timers_kept :=
  unfold connectConversation, disconnectConversation, deleteConversationItem,
    onConversationUpdated, onClickEventSummary, await, ccall;
  ckeeps_steps;
  try first [ apply (ckeeps_liftPage timersOk); timers_kept
            | apply ckeeps_modify; intros ? H; exact H ].

Lemma console_step_timersOk (k k' : Console) :
  ConsoleStep k k' -> timersOk (page k) -> timersOk (page k').
Proof.
  intros Hstep Hok.
  destruct Hstep as [net rtEvent k | k | conversation decoded item delta k | k | k
                    | v k | key v k | net la ln loc k
                    | now begun playerConnected clientConnected conversation k
                    | ended_ k | id k | id k | mono k | h k | playing k].
  - by apply (ckeeps_liftPage timersOk (onRealtimeEvent net rtEvent)); [timers_kept|].
  - by apply (ckeeps_liftPage timersOk onConversationInterrupted); [timers_kept|].
  - revert Hok. generalize k.
    change (ckeeps (fun k => timersOk (page k))
              (onConversationUpdated conversation decoded item delta)).
    console_timers_kept.
  - by apply (ckeeps_liftPage timersOk startRecording); [timers_kept|].
  - by apply (ckeeps_liftPage timersOk stopRecording); [timers_kept|].
  - by apply (ckeeps_liftPage timersOk (changeTurnEndType v)); [timers_kept|].
  - by apply (ckeeps_liftPage timersOk (set_memory key v)); [timers_kept|].
  - by apply (ckeeps_liftPage timersOk (get_weather net la ln loc)); [timers_kept|].
  - revert Hok. generalize k.
    change (ckeeps (fun k => timersOk (page k))
              (connectConversation now begun playerConnected clientConnected
                 conversation)).
    console_timers_kept.
  - revert Hok. generalize k.
    change (ckeeps (fun k => timersOk (page k)) (disconnectConversation ended_)).
    console_timers_kept.
  - revert Hok. generalize k.
    change (ckeeps (fun k => timersOk (page k)) (deleteConversationItem id)).
    console_timers_kept.
  - exact Hok.
  - cbn. unfold audioFrame. by destruct (wavRecorder (page k)).
  - by apply timerFires_timersOk.
  - exact Hok.
Qed.

End TimersKept.

Lemma timersOk_at_most_one (p : Page) : timersOk p -> (size (timers p) <= 1)%nat.
Proof.
  intros Hok. destruct (avatarTimeoutRef p) as [h|] eqn:Hr.
  - pose proof (timersOk_clear p h Hok Hr) as Hd.
    destruct (timers p !! h) as [x|] eqn:Hl.
    + rewrite <- (insert_delete_id (timers p) h x Hl), Hd, insert_empty.
      rewrite map_size_singleton. lia.
    + rewrite delete_id in Hd by done. rewrite Hd, map_size_empty. lia.
  - rewrite (timersOk_no_ref p Hok Hr), map_size_empty. lia.
Qed.

(** X3. The avatar never has two delayed transitions pending: in every
    state reachable from the first render, through any handlers, tool calls,
    frames, timer firings, connections and disconnections, at most one timer
    of the avatar is pending, and it is the one [avatarTimeoutRef] holds. *)
Theorem at_most_one_avatar_timer (k : Console) :
  reachable k ->
  (size (timers (page k)) <= 1)%nat
  /\ (forall h : positive, is_Some (timers (page k) !! h) ->
        avatarTimeoutRef (page k) = Some h).
Proof.
  intros (now & c & Hreach).
  assert (Hok : timersOk (page k)).
  { eapply (rtc_ind_r (fun k => timersOk (page k)) (initialConsole now c));
      [apply timersOk_initial
      |intros k1 k2 _ Hstep IH; by apply (console_step_timersOk k1 k2)
      |exact Hreach]. }
  split; [by apply timersOk_at_most_one | apply Hok].
Qed.

Lemma at_most_one_avatar_timer_witness :
  (size (timers (page consoleAfterCompletion)) <= 1)%nat
  /\ timers (page consoleAfterCompletion) = {[ 1%positive := (idle, 500) ]}
  /\ avatarTimeoutRef (page consoleAfterCompletion) = Some 1%positive.
Proof.
  assert (Hr : reachable consoleAfterCompletion).
  { exists 0, (Some connectedClient). eapply rtc_r; [apply rtc_refl|].
    apply StepConversationUpdated. }
  destruct (at_most_one_avatar_timer consoleAfterCompletion Hr) as [Hs Href].
  split; [exact Hs|]. split; [by vm_compute|].
  apply Href. exists (idle, 500). by vm_compute.
Defined.

Section LogKept.

Lemma neighboursDiffer_nil : neighboursDiffer [].
Proof. intros i e1 e2 H. by destruct i. Qed.

Ltac log_change :=
  first [ apply keeps_modify; intros ? ?; cbn;
          by apply logRealtimeEvent_neighboursDiffer
        | apply keeps_modify; intros ? ?; cbn; by apply neighboursDiffer_nil
        | apply keeps_modify; intros ? ?;
          by rewrite setAvatarStateSafely_realtimeEvents
        | apply keeps_modify; intros ? H; exact H ].

Ltac log_kept :=
  unfold onRealtimeEvent, onConversationInterrupted, startRecording, stopRecording,
    changeTurnEndType, set_memory, get_weather, member2, injectContext,
    cancelIfTrack, wavStreamPlayer_interrupt, wavRecorder_pause, wavRecorder_record,
    updateSession, updateClient, currentClient, fetch, responseJson, liftProp,
    getClient, getTurnDetectionType, call;
  keeps_steps; try log_change.

Ltac console_log_kept :=
  unfold connectConversation, disconnectConversation, deleteConversationItem,
    onConversationUpdated, onClickEventSummary, await, ccall;
  ckeeps_steps;
  try first [ apply (ckeeps_liftPage (fun p => neighboursDiffer (realtimeEvents p)));
              log_kept
            | apply ckeeps_modify; intros ? H; exact H ].

Lemma console_step_neighboursDiffer (k k' : Console) :
  ConsoleStep k k' ->
  neighboursDiffer (realtimeEvents (page k)) ->
  neighboursDiffer (realtimeEvents (page k')).
Proof.
  intros Hstep.
  destruct Hstep as [net rtEvent k | k | conversation decoded item delta k | k | k
                    | v k | key v k | net la ln loc k
                    | now begun playerConnected clientConnected conversation k
                    | ended_ k | id k | id k | mono k | h k | playing k].
  13: { cbn. unfold audioFrame. by destruct (wavRecorder (page k)). }
  13: { cbn. unfold timerFires. by destruct (timers (page k) !! h) as [[s ms]|]. }
  13: { done. }
  all: apply (ckeeps_apply (fun k => neighboursDiffer (realtimeEvents (page k))));
    console_log_kept.
Qed.

End LogKept.

(** X4. The event log never shows two neighbouring entries of one type: this
    holds in every state reachable from the first render, across
    connections and disconnections (which empty the log) and whatever else
    happens in between. *)
Theorem reachable_log_neighbours_differ (k : Console) :
  reachable k -> neighboursDiffer (realtimeEvents (page k)).
Proof.
  intros (now & c & Hreach).
  eapply (rtc_ind_r (fun k => neighboursDiffer (realtimeEvents (page k)))
            (initialConsole now c));
    [apply neighboursDiffer_nil
    |intros k1 k2 _ Hstep IH; by apply (console_step_neighboursDiffer k1 k2)
    |exact Hreach].
Qed.

Lemma reachable_log_neighbours_differ_witness :
  let k := fst (liftPage (onRealtimeEvent (FetchRejected [])
                            (serverEvent "response.audio.delta"))
                  (fst (liftPage (onRealtimeEvent (FetchRejected [])
                                    (serverEvent "response.audio.delta"))
                          (initialConsole 0 (Some connectedClient))))) in
  realtimeEvents (page k) = [with_count (Some 1%nat) (serverEvent "response.audio.delta")]
  /\ neighboursDiffer (realtimeEvents (page k)).
Proof.
  split; [by vm_compute|].
  apply reachable_log_neighbours_differ.
  exists 0, (Some connectedClient).
  eapply rtc_r; [eapply rtc_r; [apply rtc_refl|]|]; apply StepRealtimeEvent.
Defined.

Section ClientKept.

Lemma setAvatarStateSafely_clientRef (s : AvatarState) (ms : Z) (p : Page) :
  clientRef (setAvatarStateSafely s ms p) = clientRef p.
Proof.
  unfold setAvatarStateSafely. destruct (0 <? ms), (avatarTimeoutRef p); reflexivity.
Qed.

Ltac client_change :=
  first [ apply keeps_modify; intros ? ?; cbn; by apply fmap_is_Some
        | apply keeps_modify; intros ? ?; by rewrite setAvatarStateSafely_clientRef
        | apply keeps_modify; intros ? ?; assumption ].

Ltac client_kept :=
  unfold onRealtimeEvent, onConversationInterrupted, startRecording, stopRecording,
    changeTurnEndType, set_memory, get_weather, member2, injectContext,
    cancelIfTrack, wavStreamPlayer_interrupt, wavRecorder_pause, wavRecorder_record,
    updateSession, updateClient, currentClient, fetch, responseJson, liftProp,
    getClient, getTurnDetectionType, call;
  keeps_steps; try client_change.

Ltac console_client_kept :=
  unfold connectConversation, disconnectConversation, deleteConversationItem,
    onConversationUpdated, onClickEventSummary, await, ccall;
  ckeeps_steps;
  try first [ apply (ckeeps_liftPage (fun p => is_Some (clientRef p))); client_kept
            | apply ckeeps_modify; intros ? ?; cbn; by apply fmap_is_Some
            | apply ckeeps_modify; intros ? ?; assumption ].

(** Once there is a client there always is one. *)
Lemma console_step_client (k k' : Console) :
  ConsoleStep k k' ->
  is_Some (clientRef (page k)) -> is_Some (clientRef (page k')).
Proof.
  intros Hstep.
  destruct Hstep as [net rtEvent k | k | conversation decoded item delta k | k | k
                    | v k | key v k | net la ln loc k
                    | now begun playerConnected clientConnected conversation k
                    | ended_ k | id k | id k | mono k | h k | playing k].
  13: { cbn. unfold audioFrame. destruct (wavRecorder (page k)); try done.
        cbn. apply fmap_is_Some. }
  13: { cbn. unfold timerFires. by destruct (timers (page k) !! h) as [[s ms]|]. }
  13: { done. }
  all: apply (ckeeps_apply (fun k => is_Some (clientRef (page k))));
    console_client_kept.
Qed.

Ltac flag_kept b :=
  unfold connectConversation, disconnectConversation, deleteConversationItem,
    onConversationUpdated, onClickEventSummary, await, ccall;
  ckeeps_steps;
  try first [ apply ckeeps_modify; intros ? ?; assumption
            | intros ? ?; assumption ].

(** Steps other than connecting never raise [isConnected]. *)
Lemma console_step_isConnected (k k' : Console) :
  ConsoleStep k k' ->
  isConnected k' = true ->
  isConnected k = true \/ is_Some (clientRef (page k')).
Proof.
  intros Hstep.
  destruct Hstep as [net rtEvent k | k | conversation decoded item delta k | k | k
                    | v k | key v k | net la ln loc k
                    | now begun playerConnected clientConnected conversation k
                    | ended_ k | id k | id k | mono k | h k | playing k];
    try (by left).
  - (* conversation.updated *)
    intros H. left. destruct (isConnected k) eqn:E; [done|].
    rewrite <- H. symmetry.
    apply (ckeeps_apply (fun k' => isConnected k' = false)); [|exact E].
    flag_kept false.
  - (* connect *)
    intros H. destruct (clientRef (page k)) as [c|] eqn:Hc.
    + right. apply (ckeeps_apply (fun k => is_Some (clientRef (page k))));
        [console_client_kept | by rewrite Hc].
    + left. rewrite <- H. destruct k as [p ic its ex st cc]. cbn in Hc.
      unfold connectConversation, liftPage, getClient. run. by rewrite Hc.
  - (* disconnect *)
    intros H. exfalso.
    assert (E : isConnected (fst (disconnectConversation ended_ k)) = false);
      [|congruence].
    unfold disconnectConversation.
    match goal with
    | |- isConnected (fst (mbind ?g (cmodify ?f) ?k)) = false =>
        change (isConnected (fst (g tt (f k))) = false)
    end.
    apply (ckeeps_apply (fun k' => isConnected k' = false)); [|reflexivity].
    flag_kept false.
  - (* delete *)
    intros H. left. destruct (isConnected k) eqn:E; [done|].
    rewrite <- H. symmetry.
    apply (ckeeps_apply (fun k' => isConnected k' = false)); [|exact E].
    flag_kept false.
Qed.

End ClientKept.

Lemma stopRecording_resolves (p : Page) :
  is_Some (clientRef p) -> completionOf (stopRecording p) = Resolved tt.
Proof.
  intros [c Hc]. page p. subst cr. unfold stopRecording. run.
  by destruct (0 <? byteLength (inputAudioBuffer c)).
Qed.

(** X5. A page that shows itself connected has a client: in every reachable
    state with [isConnected] set, [clientRef] is not null, so the
    push-to-talk handlers, which the page only offers when connected, run to
    their end and never throw for want of a client. *)
Theorem connected_page_has_client (k : Console) :
  reachable k ->
  isConnected k = true ->
  is_Some (clientRef (page k))
  /\ completionOf (startRecording (page k)) = Resolved tt
  /\ completionOf (stopRecording (page k)) = Resolved tt.
Proof.
  intros (now & c & Hreach) Hk.
  assert (Hc : is_Some (clientRef (page k))).
  { revert Hk.
    eapply (rtc_ind_r (fun k => isConnected k = true -> is_Some (clientRef (page k)))
              (initialConsole now c)); [done | | exact Hreach].
    intros k1 k2 _ Hstep IH H2.
    destruct (console_step_isConnected k1 k2 Hstep H2) as [H1|Hs]; [|done].
    by apply (console_step_client k1 k2 Hstep), IH. }
  split; [exact Hc|]. split; [|by apply stopRecording_resolves].
  destruct Hc as [c' Hc'].
  by destruct (startRecording_interrupts_then_records (page k) c' Hc') as (H & _).
Qed.

Lemma connected_page_has_client_witness :
  isConnected consoleConnected = true
  /\ is_Some (clientRef (page consoleConnected))
  /\ completionOf (startRecording (page consoleConnected)) = Resolved tt
  /\ completionOf (stopRecording (page consoleConnected)) = Resolved tt.
Proof.
  split; [reflexivity|].
  apply connected_page_has_client; [|reflexivity].
  exists 0, (Some freshlyMade). eapply rtc_r; [apply rtc_refl|]. apply StepConnect.
Defined.

(* ------------------------------------------------------------------------ *)
(** ** What a realtime event does *)
(* ------------------------------------------------------------------------ *)

Lemma response_completed_is_a_response (t : jsstring) :
  streq t (js "response.completed") = true -> startsWith t (js "response.") = true.
Proof. intros H. apply streq_true in H. subst t. by vm_compute. Qed.

(** X6. Every realtime event that is not a completed transcription is
    handled to the end and logged, and drives the avatar in one of three
    ways only: [input_audio_buffer.commit] sets it to [think]; a type that
    starts with [response.] or [conversation.item.output] sets it to [talk];
    any other type leaves the avatar and its pending hold alone. The first
    two take effect at once and cancel a pending hold; in no case does the
    handler take a timer from the browser. *)
Theorem realtime_event_drives_avatar
    (net : FetchOutcome) (rtEvent : RealtimeEvent) (p : Page) :
  type (event rtEvent) <> transcriptionCompleted ->
  let t := type (event rtEvent) in
  let r := onRealtimeEvent net rtEvent p in
  let logged := fun q : Page =>
    with_realtimeEvents (logRealtimeEvent rtEvent (realtimeEvents p)) q in
  completionOf r = Resolved tt
  /\ (t = js "input_audio_buffer.commit" ->
      stateOf r = logged (setAvatarStateSafely think 0 p))
  /\ (t <> js "input_audio_buffer.commit" ->
      startsWith t (js "response.") || startsWith t (js "conversation.item.output")
        = true ->
      stateOf r = logged (setAvatarStateSafely talk 0 p))
  /\ (t <> js "input_audio_buffer.commit" ->
      startsWith t (js "response.") || startsWith t (js "conversation.item.output")
        = false ->
      stateOf r = logged p)
  /\ nextTimer (stateOf r) = nextTimer p.
Proof.
  intros Ht. cbn zeta. apply streq_false in Ht.
  unfold onRealtimeEvent. rewrite Ht, orb_false_r.
  set (t := type (event rtEvent)).
  pose proof (response_completed_is_a_response t) as Hdead.
  destruct (streq t (js "input_audio_buffer.commit")) eqn:Ec.
  - apply streq_true in Ec. run.
    unfold setAvatarStateSafely; cbn.
    destruct (avatarTimeoutRef p); repeat split; done.
  - apply streq_false in Ec.
    destruct (startsWith t (js "response.") || startsWith t (js "conversation.item.output"))
      eqn:Ep.
    + run. unfold setAvatarStateSafely; cbn.
      destruct (avatarTimeoutRef p); repeat split; done.
    + apply orb_false_elim in Ep as [Ep1 Ep2].
      destruct (streq t (js "response.completed")) eqn:Ed;
        [rewrite (Hdead eq_refl) in Ep1; discriminate|].
      run. repeat split; done.
Qed.

Lemma realtime_event_drives_avatar_witness :
  let p := pageHolding idle 500 in
  avatarState (stateOf (onRealtimeEvent (FetchRejected [])
                          (serverEvent "input_audio_buffer.commit") p)) = think
  /\ avatarState (stateOf (onRealtimeEvent (FetchRejected [])
                             (serverEvent "conversation.item.output_audio.delta") p))
     = talk
  /\ timers (stateOf (onRealtimeEvent (FetchRejected [])
                        (serverEvent "session.updated") p))
     = {[ 1%positive := (idle, 500) ]}.
Proof.
  pose proof (realtime_event_drives_avatar (FetchRejected [])
                (serverEvent "input_audio_buffer.commit") (pageHolding idle 500))
    as H1.
  pose proof (realtime_event_drives_avatar (FetchRejected [])
                (serverEvent "conversation.item.output_audio.delta")
                (pageHolding idle 500)) as H2.
  pose proof (realtime_event_drives_avatar (FetchRejected [])
                (serverEvent "session.updated") (pageHolding idle 500)) as H3.
  destruct H1 as (_ & H1 & _); [vm_compute; discriminate|].
  destruct H2 as (_ & _ & H2 & _); [vm_compute; discriminate|].
  destruct H3 as (_ & _ & _ & H3 & _); [vm_compute; discriminate|].
  split; [|split].
  - rewrite H1; reflexivity.
  - rewrite H2; [reflexivity | vm_compute; discriminate | reflexivity].
  - rewrite H3; [reflexivity | vm_compute; discriminate | reflexivity].
Defined.

(* ------------------------------------------------------------------------ *)
(** ** Context injection, the whole of it *)
(* ------------------------------------------------------------------------ *)

(** X7. When the lookup answers: for every completed transcription with a
    non-blank, well-formed transcript on an initialised client, and every ok
    response whose document is not [null], the handler asks the retrieval
    endpoint once for the trimmed transcript, sends one user message with
    the document's [message] member, whatever it is, even missing, then
    creates a response exactly when the session has no turn detection, ends
    with the avatar at [think], and only then logs the event. *)
Theorem transcription_injects_then_logs
    (rtEvent : RealtimeEvent) (p : Page) (c : RealtimeClient)
    (r : Response) (data : json) (message : jsval) :
  clientRef p = Some c ->
  type (event rtEvent) = transcriptionCompleted ->
  trim (transcript (event rtEvent)) <> [] ->
  wellFormedUTF16 (trim (transcript (event rtEvent))) = true ->
  ok r = true ->
  body r = Some data ->
  getProp (Some data) (js "message") = inr message ->
  let run := onRealtimeEvent (FetchResponse r) rtEvent p in
  completionOf run = Resolved tt
  /\ newCalls p (stateOf run)
     = [Fetch (ContextQuery (trim (transcript (event rtEvent))));
        SendUserMessageContent message]
       ++ match turn_detection c with
          | Some (_ :: _) => []
          | _ => [CreateResponse]
          end
  /\ avatarState (stateOf run) = think
  /\ avatarTimeoutRef (stateOf run) = None
  /\ realtimeEvents (stateOf run) = logRealtimeEvent rtEvent (realtimeEvents p).
Proof.
  intros Hc Ht Hq Hw Hok Hb Hm. destruct transcription_literals as (Hcm & Htc).
  page p. subst cr. unfold onRealtimeEvent, injectContext. rewrite Ht, Hcm, Htc. run.
  destruct (trim (transcript (event rtEvent))) as [|ch q] eqn:Eq; [done|].
  unfold setAvatarStateSafely. cbn.
  destruct atr; run; rewrite Hw; run; rewrite Hok; run; rewrite Hb; run;
    rewrite Hm; run;
    (destruct (turn_detection c) as [[|d td]|]; run;
     unfold setAvatarStateSafely; cbn; repeat split; new_calls).
Qed.

Lemma transcription_injects_then_logs_witness :
  let p := initialPage (Some connectedClient) in
  let run := onRealtimeEvent
               (FetchResponse {| status := 200; body := Some (JObj []) |})
               (transcribed " what is a limit ") p in
  completionOf run = Resolved tt
  /\ newCalls p (stateOf run)
     = [Fetch (ContextQuery (js "what is a limit")); SendUserMessageContent None;
        CreateResponse]
  /\ realtimeEvents (stateOf run) = [transcribed " what is a limit "].
Proof.
  pose proof (transcription_injects_then_logs (transcribed " what is a limit ")
                (initialPage (Some connectedClient)) connectedClient
                {| status := 200; body := Some (JObj []) |} (JObj []) None
                eq_refl eq_refl) as H.
  destruct H as (H1 & H2 & _ & _ & H5); try reflexivity.
  - vm_compute. discriminate.
  - split; [exact H1|]. split; [exact H2|exact H5].
Defined.

(** X8. A rejected injection injects nothing: whenever [injectContext]
    rejects, for whatever reason (no client, a transcript that cannot be
    encoded, the network, a status that is not ok, a body that is not JSON, a
    [null] document), the page is as it was, except that the lookup, if it
    got as far as being made, is in the call log; no user message was sent,
    no response was created and the avatar did not move. *)
Theorem rejected_injection_injects_nothing
    (net : FetchOutcome) (transcript : jsstring) (p : Page) (e : JsError) :
  completionOf (injectContext net transcript p) = Rejected e ->
  stateOf (injectContext net transcript p) = p
  \/ stateOf (injectContext net transcript p)
     = with_calls (calls p ++ [Fetch (ContextQuery (trim transcript))]) p.
Proof.
  unfold injectContext. run.
  destruct (clientRef p) as [c|] eqn:Hc; run; [|intros _; by left].
  destruct (truthy (trim transcript)); run; [|intros [=]].
  destruct (wellFormedUTF16 (trim transcript)); run; [|intros _; by left].
  destruct net as [reason|r]; run; [intros _; by right|].
  destruct (ok r); run; [|intros _; by right].
  destruct (body r) as [data|]; run; [|intros _; by right].
  destruct (getProp (Some data) (js "message")) as [err|message] eqn:Em; run;
    rewrite Em; run; [intros _; by right|].
  rewrite Hc. cbn.
  destruct (turn_detection c) as [[|d td]|]; run; intros [=].
Qed.

Lemma rejected_injection_injects_nothing_witness :
  let p := initialPage (Some connectedClient) in
  let answer := FetchResponse {| status := 200; body := Some JNull |} in
  completionOf (injectContext answer [55357%N] p) = Rejected URIError
  /\ stateOf (injectContext answer [55357%N] p) = p
  /\ completionOf (injectContext answer (js "limits") p) = Rejected NullishAccess
  /\ newCalls p (stateOf (injectContext answer (js "limits") p))
     = [Fetch (ContextQuery (js "limits"))].
Proof.
  split; [reflexivity|].
  destruct (rejected_injection_injects_nothing
              (FetchResponse {| status := 200; body := Some JNull |}) [55357%N]
              (initialPage (Some connectedClient)) URIError eq_refl) as [H|H].
  - split; [exact H|]. split; reflexivity.
  - vm_compute in H. discriminate H.
Defined.

(* ------------------------------------------------------------------------ *)
(** ** Press, speak, release *)
(* ------------------------------------------------------------------------ *)

Lemma deliver_recording (frames : list (list Z)) (p : Page) (c : RealtimeClient) :
  wavRecorder p = recording ->
  clientRef p = Some c ->
  deliver frames p
  = with_clientRef
      (Some (setInputAudioBuffer (inputAudioBuffer c ++ concat frames) c)) p.
Proof.
  revert p c. induction frames as [|mono frames IH]; intros p c Hr Hc.
  - page p. subst. cbn. rewrite app_nil_r. by destruct c.
  - cbn [deliver fold_left]. fold (deliver frames (audioFrame mono p)).
    rewrite (IH (audioFrame mono p)
               (setInputAudioBuffer (inputAudioBuffer c ++ mono) c)).
    + page p. subst. cbn. by rewrite <- app_assoc.
    + unfold audioFrame. by rewrite Hr.
    + unfold audioFrame. rewrite Hr, Hc. reflexivity.
Qed.

(** X9. Everything said between press and release is committed once, in
    order: after [startRecording], any frames delivered by the recorder, and
    [stopRecording], on an initialised client, the one commit that is sent
    queues exactly what was buffered before followed by the frames in
    arrival order (no commit if all of that is empty); capture ends paused,
    the local buffer empty, the recording flag down and the avatar at
    [think]. *)
Theorem press_speak_release (p : Page) (c : RealtimeClient) (frames : list (list Z)) :
  clientRef p = Some c ->
  let spoken := deliver frames (stateOf (startRecording p)) in
  let released := stopRecording spoken in
  let said := inputAudioBuffer c ++ concat frames in
  completionOf released = Resolved tt
  /\ newCalls spoken (stateOf released)
     = RecorderPause ::
       match said with
       | [] => []
       | _ :: _ => [RealtimeSend (js "input_audio_buffer.commit"); QueueInputAudio said]
       end
  /\ (inputAudioBuffer <$> clientRef (stateOf released)) = Some []
  /\ wavRecorder (stateOf released) = paused
  /\ isRecording (stateOf released) = false
  /\ avatarState (stateOf released) = think.
Proof.
  intros Hc. cbn zeta.
  assert (Hrec : wavRecorder (stateOf (startRecording p)) = recording)
    by apply (startRecording_interrupts_then_records p c Hc).
  assert (Hcl : clientRef (stateOf (startRecording p)) = Some c).
  { page p. subst cr. unfold startRecording. run.
    destruct pl as [[[|ch id] samples]|]; run;
      unfold setAvatarStateSafely; cbn; by destruct atr. }
  revert Hrec Hcl. generalize (stateOf (startRecording p)). intros q Hrec Hcl.
  rewrite (deliver_recording frames q c Hrec Hcl).
  clear p Hc. page q. subst. unfold stopRecording. run.
  destruct (inputAudioBuffer c ++ concat frames) as [|x said] eqn:Es.
  - change (0 <? byteLength []) with false. run.
    unfold setAvatarStateSafely; cbn. destruct atr; repeat split; new_calls.
  - replace (0 <? byteLength (x :: said)) with true
      by (symmetry; apply Z.ltb_lt; unfold byteLength; cbn [length]; lia).
    run. unfold setAvatarStateSafely; cbn. destruct atr; repeat split; new_calls.
Qed.

Lemma press_speak_release_witness :
  let p := with_wavStreamPlayer (Some (js "item_9", 2400))
             (initialPage (Some connectedClient)) in
  let spoken := deliver [[5; 6]; []; [7]] (stateOf (startRecording p)) in
  newCalls p (stateOf (startRecording p))
    = [PlayerInterrupt; CancelResponse (js "item_9") 2400; RecorderRecord]
  /\ newCalls spoken (stateOf (stopRecording spoken))
     = [RecorderPause; RealtimeSend (js "input_audio_buffer.commit");
        QueueInputAudio [5; 6; 7]]
  /\ wavRecorder (stateOf (stopRecording spoken)) = paused.
Proof.
  split; [reflexivity|].
  pose proof (press_speak_release
                (with_wavStreamPlayer (Some (js "item_9", 2400))
                   (initialPage (Some connectedClient)))
                connectedClient [[5; 6]; []; [7]] eq_refl) as (_ & H2 & _ & H4 & _).
  split; [exact H2|exact H4].
Defined.

(* ------------------------------------------------------------------------ *)
(** ** The turn-detection switch on any value *)
(* ------------------------------------------------------------------------ *)

(** X10. Whatever string the switch is given, on an initialised client it
    runs to the end and the push-to-talk flag agrees with the session: the
    flag is up exactly when the session ends without turn detection. Every
    value but ['none'] configures server-side detection; a value that is
    neither ['none'] nor ['server_vad'] does so without pausing or starting
    capture. *)
Theorem turn_switch_flag_follows_session (value : jsstring) (p : Page) (c : RealtimeClient) :
  clientRef p = Some c ->
  let r := changeTurnEndType value p in
  completionOf r = Resolved tt
  /\ (canPushToTalk (stateOf r) = true
      <-> (turn_detection <$> clientRef (stateOf r)) = Some None)
  /\ (value <> js "none" ->
      (turn_detection <$> clientRef (stateOf r)) = Some (Some (js "server_vad"))
      /\ canPushToTalk (stateOf r) = false)
  /\ (value <> js "none" -> value <> js "server_vad" ->
      wavRecorder (stateOf r) = wavRecorder p
      /\ newCalls p (stateOf r) = [UpdateSessionTurnDetection (Some (js "server_vad"))]).
Proof.
  intros Hc. page p. subst cr. unfold changeTurnEndType. run.
  destruct (streq value (js "none")) eqn:En.
  - apply streq_true in En. subst value.
    destruct mode_literals as (_ & Hnv & _). rewrite Hnv. cbn.
    destruct rec; repeat (case_bool_decide; try done); run; repeat split; try done.
  - cbn. apply streq_false in En.
    destruct (streq value (js "server_vad")) eqn:Ev.
    + apply streq_true in Ev. subst value.
      destruct (connected c); run; repeat split; try done;
        try (intros [=]); try (intros _ Hv; by destruct Hv).
    + apply streq_false in Ev. cbn. repeat split; try done; try (intros [=]).
      new_calls.
Qed.

Lemma turn_switch_flag_follows_session_witness :
  let p := pageTalking in
  let r := changeTurnEndType (js "semantic_vad") p in
  completionOf r = Resolved tt
  /\ canPushToTalk (stateOf r) = false
  /\ (turn_detection <$> clientRef (stateOf r)) = Some (Some (js "server_vad"))
  /\ wavRecorder (stateOf r) = recording
  /\ newCalls p (stateOf r) = [UpdateSessionTurnDetection (Some (js "server_vad"))].
Proof.
  pose proof (turn_switch_flag_follows_session (js "semantic_vad") pageTalking
                connectedClient eq_refl) as (H1 & _ & H3 & H4).
  assert (Hn : js "semantic_vad" <> js "none") by (vm_compute; discriminate).
  assert (Hv : js "semantic_vad" <> js "server_vad") by (vm_compute; discriminate).
  split; [exact H1|]. split; [exact (proj2 (H3 Hn))|]. split; [exact (proj1 (H3 Hn))|].
  exact (H4 Hn Hv).
Defined.

(* ------------------------------------------------------------------------ *)
(** ** The tools, composed *)
(* ------------------------------------------------------------------------ *)

(** X11. Memory writes compose as on a map: of two writes to one key the
    later wins, as if the earlier had not happened; writes to different keys
    commute; and writing what a key already holds changes nothing in the
    page. *)
Theorem set_memory_writes_compose
    (p : Page) (key other : jsstring) (value value' : json) :
  stateOf (set_memory key value' (stateOf (set_memory key value p)))
    = stateOf (set_memory key value' p)
  /\ (key <> other ->
      stateOf (set_memory other value' (stateOf (set_memory key value p)))
      = stateOf (set_memory key value (stateOf (set_memory other value' p))))
  /\ (memoryKv p !! key = Some value -> stateOf (set_memory key value p) = p).
Proof.
  page p. unfold set_memory. run. repeat split.
  - by rewrite insert_insert_eq.
  - intros Hne. by rewrite insert_insert_ne.
  - intros Hl. by rewrite insert_id.
Qed.

Lemma set_memory_writes_compose_witness :
  let p := initialPage None in
  let name := js "name" in
  let city := js "city" in
  memoryKv (stateOf (set_memory city (JStr (js "Lima"))
                       (stateOf (set_memory name (JStr (js "Ada")) p))))
  = memoryKv (stateOf (set_memory name (JStr (js "Ada"))
                         (stateOf (set_memory city (JStr (js "Lima")) p)))).
Proof.
  pose proof (set_memory_writes_compose (initialPage None) (js "name") (js "city")
                (JStr (js "Ada")) (JStr (js "Lima"))) as (_ & H & _).
  assert (Hne : js "name" <> js "city") by (vm_compute; discriminate).
  exact (f_equal memoryKv (H Hne)).
Defined.

Local Arguments member2 : simpl never.

Lemma member2_state (j : json) (a b : jsstring) (p : Page) :
  stateOf (member2 j a b p) = p.
Proof.
  unfold member2, mbind, Async_bind, liftProp, stateOf, throw, mret, Async_ret.
  destruct (getProp (Some j) a) as [e|inner]; [done|].
  by destruct (getProp inner b).
Qed.

(** What [json.a.b] evaluates to, when it does not throw, is the member the
    document has at that path, [undefined] if it has none. *)
Lemma member2_resolved (j : json) (a b : jsstring) (p p' : Page) (v : jsval) :
  member2 j a b p = (p', Resolved v) -> v = memberAt j a b.
Proof.
  unfold member2, memberAt, mbind, Async_bind, liftProp, throw, mret, Async_ret.
  destruct j as [| | | | |fields]; cbn; try discriminate.
  destruct (objGet a fields) as [[| | | | |inner]|]; cbn; try discriminate;
    by intros [= _ ->].
Qed.

(** X12. [get_weather] always moves the map and asks once: whatever the
    network answers, the map is centred on the requested latitude, longitude
    and location name, and exactly one forecast request is made for that
    latitude and longitude; if the handler rejects, at whatever point, the
    marker is at the requested latitude, longitude and location and has
    neither temperature nor wind speed; if it resolves, it resolves with the
    document the service sent, and the marker is at the requested latitude,
    longitude and location with, as temperature and wind speed, what the
    document holds at [current] and [current_units] under [temperature_2m]
    and [wind_speed_10m]. *)
Theorem get_weather_always_moves_map
    (net : FetchOutcome) (lat lng : Q) (location : jsstring) (p : Page) :
  let run := get_weather net lat lng location p in
  coords (stateOf run)
    = Some {| lat := lat; lng := lng; location := Some location;
              temperature := None; wind_speed := None |}
  /\ newCalls p (stateOf run) = [Fetch (Forecast lat lng)]
  /\ (forall e : JsError, completionOf run = Rejected e ->
      marker (stateOf run)
        = Some {| lat := lat; lng := lng; location := Some location;
                  temperature := None; wind_speed := None |})
  /\ (forall j : json, completionOf run = Resolved j ->
      (exists r : Response, net = FetchResponse r /\ body r = Some j)
      /\ marker (stateOf run)
         = Some {| lat := lat; lng := lng; location := Some location;
                   temperature :=
                     Some {| value := memberAt j (js "current") (js "temperature_2m");
                             units := memberAt j (js "current_units")
                                        (js "temperature_2m") |};
                   wind_speed :=
                     Some {| value := memberAt j (js "current") (js "wind_speed_10m");
                             units := memberAt j (js "current_units")
                                        (js "wind_speed_10m") |} |}).
Proof.
  cbn zeta. unfold get_weather. run.
  destruct net as [reason|[st bd]]; run.
  { repeat split; try done; try new_calls; intros ? [=]. }
  destruct bd as [j|]; run.
  2:{ repeat split; try done; try new_calls; intros ? [=]. }
  repeat match goal with
  | |- context [member2 ?j ?a ?b ?q] =>
      let H := fresh "Hm" in
      let E := fresh "Em" in
      pose proof (member2_state j a b q) as H;
      destruct (member2 j a b q) as [? [?|?]] eqn:E;
      [apply member2_resolved in E|clear E];
      unfold stateOf in H; cbn in H; subst;
      cbn
  end;
  repeat split; try done; try new_calls; try (intros ? [=]).
  - simplify_eq. by eexists.
  - by simplify_eq.
Qed.

Lemma get_weather_always_moves_map_witness :
  let p := initialPage (Some connectedClient) in
  let run := get_weather (FetchResponse {| status := 200; body := None |})
               (Qmake 1 2) (Qmake 3 4) (js "here") p in
  let doc := forecastDocument (Qmake 143 10) celsius (Qmake 92 10) (js "km/h") in
  let told := get_weather (FetchResponse {| status := 200; body := Some doc |})
                (Qmake 1 2) (Qmake 3 4) (js "here") p in
  (coords (stateOf run)
     = Some {| lat := Qmake 1 2; lng := Qmake 3 4; location := Some (js "here");
               temperature := None; wind_speed := None |}
   /\ marker (stateOf run)
      = Some {| lat := Qmake 1 2; lng := Qmake 3 4; location := Some (js "here");
                temperature := None; wind_speed := None |}
   /\ newCalls p (stateOf run) = [Fetch (Forecast (Qmake 1 2) (Qmake 3 4))]
   /\ completionOf run = Rejected BodyNotJson)
  /\ marker (stateOf told)
     = Some {| lat := Qmake 1 2; lng := Qmake 3 4; location := Some (js "here");
               temperature := Some {| value := Some (JNum (Qmake 143 10));
                                      units := Some (JStr celsius) |};
               wind_speed := Some {| value := Some (JNum (Qmake 92 10));
                                     units := Some (JStr (js "km/h")) |} |}.
Proof.
  pose proof (get_weather_always_moves_map
                (FetchResponse {| status := 200; body := None |})
                (Qmake 1 2) (Qmake 3 4) (js "here")
                (initialPage (Some connectedClient))) as (H1 & H2 & H3 & _).
  pose proof (get_weather_always_moves_map
                (FetchResponse
                   {| status := 200;
                      body := Some (forecastDocument (Qmake 143 10) celsius
                                      (Qmake 92 10) (js "km/h")) |})
                (Qmake 1 2) (Qmake 3 4) (js "here")
                (initialPage (Some connectedClient))) as (_ & _ & _ & H4).
  split.
  - split; [exact H1|]. split; [exact (H3 BodyNotJson eq_refl)|].
    split; [exact H2|reflexivity].
  - refine (eq_trans (proj2 (H4 (forecastDocument (Qmake 143 10) celsius
                                   (Qmake 92 10) (js "km/h")) _)) _);
      reflexivity.
Defined.

(* ------------------------------------------------------------------------ *)
(** ** When a client is made *)
(* ------------------------------------------------------------------------ *)

(** X13. The page makes a client exactly when it has something to make it
    with: no client is constructed if and only if no relay URL is set, no
    key is stored and no key is typed at the prompt. Without a relay a
    stored key takes precedence over the prompt, a typed key is stored, and
    with a relay the stored key is never touched. *)
Theorem client_made_iff_relay_or_key (envRelayUrl stored prompted : option jsstring) :
  let relayUrl := LOCAL_RELAY_SERVER_URL envRelayUrl in
  (pageClientOptions envRelayUrl stored prompted = None
   <-> relayUrl = [] /\ default [] stored = [] /\ default [] prompted = [])
  /\ (relayUrl = [] -> default [] stored <> [] ->
      initApiKey relayUrl stored prompted = (default [] stored, stored))
  /\ (relayUrl = [] -> default [] stored = [] -> default [] prompted <> [] ->
      initApiKey relayUrl stored prompted = (default [] prompted, prompted))
  /\ (relayUrl <> [] -> snd (initApiKey relayUrl stored prompted) = stored).
Proof.
  cbn zeta. unfold pageClientOptions, initClient, initApiKey.
  destruct (LOCAL_RELAY_SERVER_URL envRelayUrl) as [|u us];
    destruct stored as [[|s ss]|], prompted as [[|q qs]|]; cbn;
    repeat split; try done; try (by intros (? & ? & ?)); try (by intros [=]).
Qed.

Lemma client_made_iff_relay_or_key_witness :
  pageClientOptions None None None = None
  /\ initApiKey [] (Some (js "sk-old")) (Some (js "sk-new"))
     = (js "sk-old", Some (js "sk-old"))
  /\ snd (initApiKey (js "ws://relay") None (Some (js "sk-new"))) = None.
Proof.
  pose proof (client_made_iff_relay_or_key None None None) as (H1 & _).
  pose proof (client_made_iff_relay_or_key None (Some (js "sk-old"))
                (Some (js "sk-new"))) as (_ & H2 & _).
  pose proof (client_made_iff_relay_or_key (Some (js "ws://relay")) None
                (Some (js "sk-new"))) as (_ & _ & _ & H4).
  split; [by apply H1|]. split.
  - apply H2; [reflexivity | vm_compute; discriminate].
  - apply H4. vm_compute. discriminate.
Defined.

(* ------------------------------------------------------------------------ *)
(** ** Conversation updates *)
(* ------------------------------------------------------------------------ *)

(** Unfolding of runs over the whole page. *)
Ltac crun :=
  repeat (unfold mbind, mret, CAsync_bind, CAsync_ret, cthrow, cmodify, ccall,
          await, liftPage in *; cbn in *).

Lemma drop_snoc_more {A : Type} (l : list A) (a : A) (rest : list A) :
  drop (length (l ++ [a])) (l ++ a :: rest) = rest.
Proof. by rewrite (cons_middle a l rest), app_assoc, drop_app_length. Qed.

Ltac new_console_calls :=
  unfold newConsoleCalls, newCalls; cbn; rewrite <- ?app_assoc;
  rewrite ?drop_app_length, ?drop_all, ?app_nil_r; cbn;
  rewrite <- ?app_assoc; rewrite ?drop_app_length; cbn;
  rewrite ?drop_snoc_more; cbn; try done.

(** X14. When an assistant item completes, the avatar returns to idle
    half a second later and not before: for every update of a completed
    assistant item, from a state that keeps the timer invariant, the only
    pending timer afterwards is a 500 ms hold towards [idle]; until it runs
    the avatar shows [talk] if the update carried audio and what it showed
    before otherwise; when the browser runs it the avatar is [idle] and no
    timer is left. *)
Theorem assistant_completion_holds_then_idles
    (conversation : list ItemType.t) (decoded : JsError + ItemType.WavFile)
    (item : ItemType.t) (delta : option (list Z)) (k : Console) :
  timersOk (page k) ->
  completedAssistant item = true ->
  let k' := fst (onConversationUpdated conversation decoded item delta k) in
  let h := nextTimer (page k) in
  timers (page k') = {[ h := (idle, 500) ]}
  /\ avatarTimeoutRef (page k') = Some h
  /\ avatarState (page k')
     = match delta with Some _ => talk | None => avatarState (page k) end
  /\ avatarState (timerFires h (page k')) = idle
  /\ timers (timerFires h (page k')) = ∅.
Proof.
  intros Hok Hca. apply andb_prop in Hca as [Hst Hro].
  apply bool_decide_eq_true in Hro.
  cbn zeta. unfold onConversationUpdated. rewrite Hst, Hro.
  rewrite bool_decide_eq_true_2 by done.
  assert (Hstep : forall q : Page, timersOk q -> nextTimer q = nextTimer (page k) ->
            let q' := setAvatarStateSafely idle 500 q in
            timers q' = {[ nextTimer (page k) := (idle, 500) ]}
            /\ avatarTimeoutRef q' = Some (nextTimer (page k))
            /\ avatarState q' = avatarState q
            /\ avatarState (timerFires (nextTimer (page k)) q') = idle
            /\ timers (timerFires (nextTimer (page k)) q') = ∅).
  { intros q Hq Hn q'.
    destruct (setAvatarStateSafely_hold q idle 500 Hq ltac:(lia)) as (Ht & Hr & Ha).
    fold q' in Ht, Hr, Ha. rewrite Hn in Ht, Hr.
    unfold timerFires. rewrite Ht, lookup_singleton_eq. cbn.
    repeat split; try done. by rewrite delete_singleton_eq. }
  destruct k as [p ic its ex st cc]. cbn in Hok, Hstep |- *.
  destruct delta as [audio|]; crun.
  - assert (Hq : timersOk (setAvatarStateSafely talk 0 p))
      by by apply setAvatarStateSafely_timersOk.
    assert (Hn : nextTimer (setAvatarStateSafely talk 0 p) = nextTimer p).
    { unfold setAvatarStateSafely. cbn. by destruct (avatarTimeoutRef p). }
    destruct (Hstep _ Hq Hn) as (H1 & H2 & H3 & H4 & H5).
    assert (Ha : avatarState (setAvatarStateSafely talk 0 p) = talk).
    { unfold setAvatarStateSafely. cbn. by destruct (avatarTimeoutRef p). }
    rewrite Ha in H3.
    destruct (ItemType.audio (ItemType.formatted item)) as [[|x xs]|];
      repeat (case_bool_decide; try done); crun;
      try (destruct decoded; crun); repeat split; assumption.
  - destruct (Hstep p Hok eq_refl) as (H1 & H2 & H3 & H4 & H5).
    destruct (ItemType.audio (ItemType.formatted item)) as [[|x xs]|];
      repeat (case_bool_decide; try done); crun;
      try (destruct decoded; crun); repeat split; assumption.
Qed.

Lemma assistant_completion_holds_then_idles_witness :
  let k := initialConsole 0 (Some connectedClient) in
  let item := assistantItem "item_1" "completed" [1; 2] in
  let k' := fst (onConversationUpdated [item] (inl BodyNotJson) item (Some [1; 2]) k) in
  timers (page k') = {[ 1%positive := (idle, 500) ]}
  /\ avatarState (page k') = talk
  /\ avatarState (timerFires 1 (page k')) = idle.
Proof.
  pose proof (assistant_completion_holds_then_idles
                [assistantItem "item_1" "completed" [1; 2]] (inl BodyNotJson)
                (assistantItem "item_1" "completed" [1; 2]) (Some [1; 2])
                (initialConsole 0 (Some connectedClient))
                (timersOk_initial _) eq_refl) as (H1 & _ & H3 & H4 & _).
  split; [exact H1|]. split; [exact H3|exact H4].
Defined.

Local Arguments setAvatarStateSafely : simpl never.

(** X15. Every audio delta reaches the player once and makes the avatar
    talk: for every update that carries audio, from a state that keeps the
    timer invariant, the first thing the handler does is hand the samples to
    the player under the id of the item, it does so exactly once, and the
    avatar shows [talk] at once; a hold that was pending is cancelled, and
    the only timer left afterwards is the new hold if this very update
    completes an assistant item. *)
Theorem audio_delta_is_played_and_talks
    (conversation : list ItemType.t) (decoded : JsError + ItemType.WavFile)
    (item : ItemType.t) (audio : list Z) (k : Console) :
  timersOk (page k) ->
  let k' := fst (onConversationUpdated conversation decoded item (Some audio) k) in
  head (newConsoleCalls k k') = Some (PlayerAdd16BitPCM audio (ItemType.id item))
  /\ length (List.filter isPlayerAdd (newConsoleCalls k k')) = 1%nat
  /\ avatarState (page k') = talk
  /\ timers (page k')
     = (if completedAssistant item
        then {[ nextTimer (page k) := (idle, 500) ]} else ∅).
Proof.
  intros Hok. cbn zeta.
  destruct (setAvatarStateSafely_now (page k) talk 0 Hok ltac:(lia)) as (Ht & Hr & Ha).
  assert (Hq : timersOk (setAvatarStateSafely talk 0 (page k)))
    by by apply setAvatarStateSafely_timersOk.
  assert (Hn : nextTimer (setAvatarStateSafely talk 0 (page k)) = nextTimer (page k)).
  { unfold setAvatarStateSafely. cbn. by destruct (avatarTimeoutRef (page k)). }
  destruct (setAvatarStateSafely_hold _ idle 500 Hq ltac:(lia)) as (Ht2 & Hr2 & Ha2).
  rewrite Hn in Ht2. rewrite Ha in Ha2.
  unfold onConversationUpdated, completedAssistant.
  destruct k as [p ic its ex st cc]. cbn in Hok, Ht, Hr, Ha, Ht2, Ha2 |- *.
  destruct (streq (ItemType.status item) (js "completed"));
    destruct (bool_decide (ItemType.role item = Some (js "assistant")));
    destruct (ItemType.audio (ItemType.formatted item)) as [[|x xs]|];
    repeat (case_bool_decide; try done); crun;
    try (destruct decoded; crun);
    repeat split; try assumption;
    unfold newConsoleCalls, newCalls; cbn;
    rewrite ?setAvatarStateSafely_calls, ?drop_all; cbn;
    rewrite <- ?app_assoc, ?drop_app_length; cbn;
    rewrite ?setAvatarStateSafely_calls, ?drop_all; done.
Qed.

Lemma audio_delta_is_played_and_talks_witness :
  let k := consoleAfterCompletion in
  let item := assistantItem "item_2" "in_progress" [] in
  let k' := fst (onConversationUpdated [item] (inl BodyNotJson) item (Some [9; 9]) k) in
  timers (page k) = {[ 1%positive := (idle, 500) ]}
  /\ head (newConsoleCalls k k') = Some (PlayerAdd16BitPCM [9; 9] (js "item_2"))
  /\ avatarState (page k') = talk
  /\ timers (page k') = ∅.
Proof.
  split; [by vm_compute|].
  assert (Hok : timersOk (page consoleAfterCompletion)).
  { apply (ckeeps_apply (fun k => timersOk (page k))); [|apply timersOk_initial].
    intros k Hk.
    by apply (console_step_timersOk k _ (StepConversationUpdated _ _ _ _ k)). }
  pose proof (audio_delta_is_played_and_talks
                [assistantItem "item_2" "in_progress" []] (inl BodyNotJson)
                (assistantItem "item_2" "in_progress" []) [9; 9]
                consoleAfterCompletion Hok) as (H1 & _ & H3 & H4).
  split; [exact H1|]. split; [exact H3|exact H4].
Defined.

(** X16. The item list follows the conversation, and a decoding failure
    leaves it stale: an update of an item that is not completed with audio
    shows the client's conversation as it is; an update of a completed item
    with audio shows a list of the same length in which every item keeps its
    id, role, type, status, transcript, text, audio, tool and output, the
    items with the id of the updated one have the decoded file as their
    file, and every other item has the file it had; and if decoding fails
    the handler rejects with the decoder's error and the list on display
    stays the old one. *)
Theorem conversation_update_refreshes_items
    (conversation : list ItemType.t) (decoded : JsError + ItemType.WavFile)
    (item : ItemType.t) (delta : option (list Z)) (k : Console) :
  let r := onConversationUpdated conversation decoded item delta k in
  (completedWithAudio item = false ->
   snd r = Resolved tt /\ items (fst r) = conversation)
  /\ (forall w : ItemType.WavFile,
      completedWithAudio item = true -> decoded = inr w ->
      snd r = Resolved tt
      /\ length (items (fst r)) = length conversation
      /\ forall (n : nat) (i : ItemType.t),
           conversation !! n = Some i ->
           exists shown : ItemType.t,
             items (fst r) !! n = Some shown
             /\ ItemType.file (ItemType.formatted shown)
                = (if bool_decide (ItemType.id i = ItemType.id item)
                   then Some w else ItemType.file (ItemType.formatted i))
             /\ ItemType.id shown = ItemType.id i
             /\ ItemType.role shown = ItemType.role i
             /\ ItemType.type shown = ItemType.type i
             /\ ItemType.status shown = ItemType.status i
             /\ ItemType.transcript (ItemType.formatted shown)
                = ItemType.transcript (ItemType.formatted i)
             /\ ItemType.text (ItemType.formatted shown)
                = ItemType.text (ItemType.formatted i)
             /\ ItemType.audio (ItemType.formatted shown)
                = ItemType.audio (ItemType.formatted i)
             /\ ItemType.tool (ItemType.formatted shown)
                = ItemType.tool (ItemType.formatted i)
             /\ ItemType.output (ItemType.formatted shown)
                = ItemType.output (ItemType.formatted i))
  /\ (forall e : JsError,
      completedWithAudio item = true -> decoded = inl e ->
      snd r = Rejected e /\ items (fst r) = items k).
Proof.
  cbn zeta. unfold onConversationUpdated, completedWithAudio.
  destruct k as [p ic its ex st cc].
  destruct delta as [audio|];
    destruct (streq (ItemType.status item) (js "completed"));
    destruct (bool_decide (ItemType.role item = Some (js "assistant")));
    destruct (ItemType.audio (ItemType.formatted item)) as [[|x xs]|];
    repeat (case_bool_decide; try done); crun;
    (split; [|split]); try (intros [=]); try done;
    try (intros w _ ->; crun; split; [done|]; split; [by rewrite length_fmap|];
         intros n i Hn; rewrite list_lookup_fmap, Hn; cbn;
         eexists; split; [done|]; by case_bool_decide);
    try (intros e _ ->; crun; done);
    try (intros ? [=]).
Qed.

Lemma conversation_update_refreshes_items_witness :
  let done_ := assistantItem "item_1" "completed" [4; 5] in
  let other := assistantItem "item_2" "in_progress" [] in
  let k := initialConsole 0 (Some connectedClient) in
  let wav := {| ItemType.url := js "blob:1" |} in
  let shown := items (fst (onConversationUpdated [done_; other] (inr wav) done_ None k)) in
  (exists first second : ItemType.t,
      shown = [first; second]
      /\ ItemType.file (ItemType.formatted first) = Some {| ItemType.url := js "blob:1" |}
      /\ ItemType.id first = js "item_1"
      /\ ItemType.audio (ItemType.formatted first) = Some [4; 5]
      /\ ItemType.file (ItemType.formatted second) = None
      /\ ItemType.id second = js "item_2")
  /\ snd (onConversationUpdated [done_; other] (inl BodyNotJson) done_ None k)
     = Rejected BodyNotJson
  /\ items (fst (onConversationUpdated [done_; other] (inl BodyNotJson) done_ None k))
     = [].
Proof.
  pose proof (conversation_update_refreshes_items
                [assistantItem "item_1" "completed" [4; 5];
                 assistantItem "item_2" "in_progress" []]
                (inr {| ItemType.url := js "blob:1" |})
                (assistantItem "item_1" "completed" [4; 5]) None
                (initialConsole 0 (Some connectedClient))) as (_ & Hok & _).
  pose proof (conversation_update_refreshes_items
                [assistantItem "item_1" "completed" [4; 5];
                 assistantItem "item_2" "in_progress" []]
                (inl BodyNotJson)
                (assistantItem "item_1" "completed" [4; 5]) None
                (initialConsole 0 (Some connectedClient))) as (_ & _ & Hfail).
  destruct (Hok _ eq_refl eq_refl) as (_ & Hlen & Hat).
  destruct (Hat 0%nat _ eq_refl)
    as (first & H0 & Hf0 & Hi0 & _ & _ & _ & _ & _ & Ha0 & _ & _).
  destruct (Hat 1%nat _ eq_refl)
    as (second & H1 & Hf1 & Hi1 & _).
  split; [|split].
  - exists first, second. cbn zeta.
    destruct (items (fst (onConversationUpdated
                [assistantItem "item_1" "completed" [4; 5];
                 assistantItem "item_2" "in_progress" []]
                (inr {| ItemType.url := js "blob:1" |})
                (assistantItem "item_1" "completed" [4; 5]) None
                (initialConsole 0 (Some connectedClient)))))
      as [|a [|b [|c rest]]]; try discriminate.
    cbn in H0, H1. injection H0 as ->. injection H1 as ->.
    repeat split; assumption.
  - exact (proj1 (Hfail BodyNotJson eq_refl eq_refl)).
  - exact (proj2 (Hfail BodyNotJson eq_refl eq_refl)).
Defined.

(* ------------------------------------------------------------------------ *)
(** ** Connecting and disconnecting *)
(* ------------------------------------------------------------------------ *)

(** X17. A connection that goes through greets once and listens only in
    automatic mode: on an initialised client, when the recorder, the player
    and the client all come up, the page acquires the microphone, connects
    player and client in that order, sends the greeting once, marks itself
    connected at the given instant with an empty event log and the client's
    items, and starts capture exactly when the session asks for
    ['server_vad'] detection; otherwise the recorder is left acquired and
    silent. *)
Theorem connect_greets_once_and_listens
    (now : Z) (conversation : list ItemType.t) (k : Console) (c : RealtimeClient) :
  clientRef (page k) = Some c ->
  let r := connectConversation now None None None conversation k in
  let automatic := bool_decide (turn_detection c = Some (js "server_vad")) in
  snd r = Resolved tt
  /\ isConnected (fst r) = true
  /\ startTimeRef (fst r) = now
  /\ items (fst r) = conversation
  /\ realtimeEvents (page (fst r)) = []
  /\ clientRef (page (fst r)) = Some (setConnected true c)
  /\ newConsoleCalls k (fst r)
     = [RecorderBegin; PlayerConnect; ClientConnect;
        PageCall (SendUserMessageContent (Some (JStr (js "Hello!"))))]
       ++ (if automatic then [PageCall RecorderRecord] else [])
  /\ wavRecorder (page (fst r)) = (if automatic then recording else paused).
Proof.
  intros Hc. destruct k as [p ic its ex st cc]. cbn in Hc.
  page p. subst cr. cbn zeta. unfold connectConversation. crun. run.
  destruct (turn_detection c) as [[|d td]|]; cbn;
    repeat (case_bool_decide; try done); crun; run;
    repeat split; try done; new_console_calls.
Qed.

Lemma connect_greets_once_and_listens_witness :
  let k := initialConsole 0 (Some freshlyMade) in
  let r := connectConversation 1000 None None None [] k in
  snd r = Resolved tt
  /\ isConnected (fst r) = true
  /\ newConsoleCalls k (fst r)
     = [RecorderBegin; PlayerConnect; ClientConnect;
        PageCall (SendUserMessageContent (Some (JStr (js "Hello!"))))]
  /\ wavRecorder (page (fst r)) = paused.
Proof.
  pose proof (connect_greets_once_and_listens 1000 []
                (initialConsole 0 (Some freshlyMade)) freshlyMade eq_refl)
    as (H1 & H2 & _ & _ & _ & _ & H7 & H8).
  split; [exact H1|]. split; [exact H2|]. split; [exact H7|exact H8].
Defined.

(** X18. A connection that fails leaves the page closed and silent:
    whenever [connectConversation] rejects, because there is no client or
    because the recorder, the player or the client does not come up, the
    page does not mark itself connected, keeps its event log, its items and
    its start instant, and has sent no greeting; the calls it made are the
    first ones of acquiring the microphone, connecting the player and
    connecting the client, up to the one that failed. *)
Theorem failed_connect_stays_closed
    (now : Z) (begun playerConnected clientConnected : option JsError)
    (conversation : list ItemType.t) (k : Console) (e : JsError) :
  let r := connectConversation now begun playerConnected clientConnected
             conversation k in
  snd r = Rejected e ->
  isConnected (fst r) = isConnected k
  /\ items (fst r) = items k
  /\ startTimeRef (fst r) = startTimeRef k
  /\ realtimeEvents (page (fst r)) = realtimeEvents (page k)
  /\ List.filter isGreeting (newConsoleCalls k (fst r)) = []
  /\ newConsoleCalls k (fst r) `prefix_of` [RecorderBegin; PlayerConnect; ClientConnect].
Proof.
  destruct k as [p ic its ex st cc]. page p.
  cbn zeta. unfold connectConversation. crun. run.
  destruct cr as [c|]; crun; run.
  2:{ intros _. repeat split; try done; new_console_calls; by eexists. }
  destruct begun as [e1|]; crun; run.
  { intros _. repeat split; try done; new_console_calls; by eexists. }
  destruct playerConnected as [e2|]; crun; run.
  { intros _. repeat split; try done; new_console_calls; by eexists. }
  destruct clientConnected as [e3|]; crun; run.
  { intros _. repeat split; try done; new_console_calls; by eexists. }
  destruct (turn_detection c) as [[|d td]|]; cbn;
    repeat (case_bool_decide; try done); crun; run; intros [=].
Qed.

Lemma failed_connect_stays_closed_witness :
  let k := initialConsole 0 (Some freshlyMade) in
  let r := connectConversation 1000 None None (Some (NetworkError (js "refused"))) [] k in
  snd r = Rejected (NetworkError (js "refused"))
  /\ isConnected (fst r) = false
  /\ newConsoleCalls k (fst r) = [RecorderBegin; PlayerConnect; ClientConnect]
  /\ wavRecorder (page (fst r)) = paused.
Proof.
  split; [reflexivity|].
  pose proof (failed_connect_stays_closed 1000 None None
                (Some (NetworkError (js "refused"))) []
                (initialConsole 0 (Some freshlyMade)) (NetworkError (js "refused"))
                eq_refl) as (H1 & _).
  split; [exact H1|]. split; reflexivity.
Defined.

(** X19. Disconnecting always wipes what the page shows, and tears down the
    collaborators only if it can: whatever the state, after
    [disconnectConversation] the page is marked disconnected with no items,
    no events, no memory, no marker and the map back at its default centre,
    even when the function then rejects. Without a client it rejects before
    calling anything. With one, it disconnects the client, releases the
    recorder and interrupts playback, in that order and without sending any
    cancellation, and ends with the avatar idle and no hold pending; if
    releasing the recorder fails, playback is not interrupted and the avatar
    is not reset. *)
Theorem disconnect_wipes_page (ended_ : option JsError) (k : Console) :
  let r := disconnectConversation ended_ k in
  (isConnected (fst r) = false
   /\ items (fst r) = []
   /\ realtimeEvents (page (fst r)) = []
   /\ memoryKv (page (fst r)) = ∅
   /\ coords (page (fst r)) = Some defaultCoords
   /\ marker (page (fst r)) = None)
  /\ (clientRef (page k) = None ->
      snd r = Rejected ClientNotInitialized
      /\ newConsoleCalls k (fst r) = []
      /\ avatarState (page (fst r)) = avatarState (page k))
  /\ (forall c : RealtimeClient,
      clientRef (page k) = Some c -> ended_ = None ->
      snd r = Resolved tt
      /\ newConsoleCalls k (fst r)
         = [ClientDisconnect; RecorderEnd; PageCall PlayerInterrupt]
      /\ clientRef (page (fst r)) = Some (setConnected false c)
      /\ wavRecorder (page (fst r)) = ended
      /\ wavStreamPlayer (page (fst r)) = None
      /\ avatarState (page (fst r)) = idle
      /\ avatarTimeoutRef (page (fst r)) = None)
  /\ (forall (c : RealtimeClient) (e : JsError),
      clientRef (page k) = Some c -> ended_ = Some e ->
      snd r = Rejected e
      /\ newConsoleCalls k (fst r) = [ClientDisconnect; RecorderEnd]
      /\ wavStreamPlayer (page (fst r)) = wavStreamPlayer (page k)
      /\ avatarState (page (fst r)) = avatarState (page k)).
Proof.
  destruct k as [p ic its ex st cc]. page p.
  cbn zeta. unfold disconnectConversation. crun. run.
  destruct cr as [c|]; crun; run.
  - destruct ended_ as [e|]; crun; run.
    + split; [done|]. split; [intros [=]|]. split; [intros ? _ [=]|].
      intros c' e' [= <-] [= <-]. repeat split; new_console_calls.
    + unfold setAvatarStateSafely; cbn.
      destruct atr, pl as [[id samples]|]; cbn;
        (split; [done|]); (split; [intros [=]|]); (split; [|intros ? ? _ [=]]);
        intros c' [= <-] _; repeat split; new_console_calls.
  - split; [done|]. split; [intros _; repeat split; new_console_calls|].
    split; [intros ? [=]|intros ? ? [=]].
Qed.

Lemma disconnect_wipes_page_witness :
  let k := fst (liftPage (set_memory (js "name") (JStr (js "Ada"))) consoleConnected) in
  let r := disconnectConversation None k in
  memoryKv (page k) = {[ js "name" := JStr (js "Ada") ]}
  /\ snd r = Resolved tt
  /\ memoryKv (page (fst r)) = ∅
  /\ isConnected (fst r) = false
  /\ newConsoleCalls k (fst r)
     = [ClientDisconnect; RecorderEnd; PageCall PlayerInterrupt]
  /\ wavRecorder (page (fst r)) = ended.
Proof.
  split; [by vm_compute|].
  pose proof (disconnect_wipes_page None
                (fst (liftPage (set_memory (js "name") (JStr (js "Ada")))
                        consoleConnected)))
    as ((H1 & _ & _ & H4 & _) & _ & Hc & _).
  destruct (Hc (setConnected true freshlyMade) eq_refl eq_refl)
    as (R1 & R2 & _ & R4 & _).
  split; [exact R1|]. split; [exact H4|]. split; [exact H1|].
  split; [exact R2|exact R4].
Defined.

(* ------------------------------------------------------------------------ *)
(** ** Expanding and collapsing events *)
(* ------------------------------------------------------------------------ *)

Lemma toggleExpanded_onlyTrue (id : jsstring) (expanded : gmap jsstring bool) :
  onlyTrue expanded -> onlyTrue (toggleExpanded id expanded).
Proof.
  intros Ho i b. unfold toggleExpanded.
  destruct (isExpanded id expanded) eqn:Ex.
  - intros H. apply lookup_delete_Some in H as [_ H]. by apply (Ho i).
  - intros H. apply lookup_insert_Some in H as [[<- <-]|[_ H]]; [|by apply (Ho i)].
    split; [done|]. unfold isExpanded in Ex.
    destruct (expanded !! id) as [shown|] eqn:El; [|done].
    subst shown. by destruct (Ho id false El).
Qed.

Lemma console_step_onlyTrue (k k' : Console) :
  ConsoleStep k k' -> onlyTrue (expandedEvents k) -> onlyTrue (expandedEvents k').
Proof.
  intros Hstep.
  destruct Hstep as [net rtEvent k | k | conversation decoded item delta k | k | k
                    | v k | key v k | net la ln loc k
                    | now begun playerConnected clientConnected conversation k
                    | ended_ k | id k | id k | mono k | h k | playing k];
    try (intros ?; assumption).
  5: { cbn. apply toggleExpanded_onlyTrue. }
  all: apply (ckeeps_apply (fun k => onlyTrue (expandedEvents k)));
    unfold connectConversation, disconnectConversation, deleteConversationItem,
      onConversationUpdated, await, ccall;
    ckeeps_steps;
    first [ apply ckeeps_modify; intros ? ?; assumption | intros ? ?; assumption ].
Qed.

Lemma reachable_onlyTrue (k : Console) : reachable k -> onlyTrue (expandedEvents k).
Proof.
  intros (now & c & Hreach).
  eapply (rtc_ind_r (fun k => onlyTrue (expandedEvents k)) (initialConsole now c));
    [intros i b H; cbn in H; by rewrite lookup_empty in H
    |intros k1 k2 _ Hstep IH; by apply (console_step_onlyTrue k1 k2)
    |exact Hreach].
Qed.

(** X20. A click on an event's summary flips that event and no other, and
    a second click undoes the first: in every reachable state, after the
    click the payload of the event is shown exactly if it was hidden before,
    unless the id of the event is the name of a member every object inherits
    ([constructor], [toString], [__proto__] and the like), in which case
    the payload is shown whatever was clicked and the click changes nothing;
    every other event is shown or hidden as before, and clicking twice gives
    back the very map of expanded events there was. *)
Theorem click_flips_one_event (k : Console) (id other : jsstring) :
  reachable k ->
  let clicked := fst (onClickEventSummary id k) in
  (inheritedMember id = false ->
   isExpanded id (expandedEvents clicked) = negb (isExpanded id (expandedEvents k)))
  /\ (inheritedMember id = true ->
      isExpanded id (expandedEvents k) = true
      /\ isExpanded id (expandedEvents clicked) = true
      /\ expandedEvents clicked = expandedEvents k)
  /\ (other <> id ->
      isExpanded other (expandedEvents clicked) = isExpanded other (expandedEvents k))
  /\ expandedEvents (fst (onClickEventSummary id clicked)) = expandedEvents k.
Proof.
  intros Hr. pose proof (reachable_onlyTrue k Hr) as Ho.
  cbn. unfold toggleExpanded, isExpanded.
  destruct (expandedEvents k !! id) as [b|] eqn:El.
  - destruct (Ho id b El) as [-> Hin]. rewrite Hin, lookup_delete_eq. cbn.
    split; [done|]. split; [done|]. split.
    + intros Hne. by rewrite lookup_delete_ne.
    + by apply insert_delete_id.
  - destruct (inheritedMember id) eqn:Hin.
    + rewrite (delete_id (expandedEvents k) id El), El.
      split; [done|]. split; [done|]. split; [done|].
      by rewrite (delete_id (expandedEvents k) id El).
    + rewrite lookup_insert_eq. cbn. split; [done|]. split; [done|]. split.
      * intros Hne. by rewrite lookup_insert_ne.
      * rewrite delete_insert_eq. by rewrite delete_id.
Qed.

Lemma click_flips_one_event_witness :
  let k := fst (onClickEventSummary (js "evt_1") (initialConsole 0 None)) in
  isExpanded (js "evt_1") (expandedEvents k) = true
  /\ isExpanded (js "evt_1") (expandedEvents (fst (onClickEventSummary (js "evt_1") k)))
     = false
  /\ isExpanded (js "evt_1") (expandedEvents (fst (onClickEventSummary (js "evt_2") k)))
     = true
  /\ isExpanded (js "constructor") (expandedEvents k) = true
  /\ expandedEvents (fst (onClickEventSummary (js "constructor") k)) = expandedEvents k
  /\ expandedEvents k = {[ js "evt_1" := true ]}.
Proof.
  assert (Hr : reachable (fst (onClickEventSummary (js "evt_1") (initialConsole 0 None)))).
  { exists 0, None. eapply rtc_r; [apply rtc_refl|]. apply StepClickEventSummary. }
  pose proof (click_flips_one_event _ (js "evt_1") (js "evt_1") Hr) as (H1 & _).
  pose proof (click_flips_one_event _ (js "evt_2") (js "evt_1") Hr) as (_ & _ & H2 & _).
  pose proof (click_flips_one_event _ (js "constructor") (js "evt_1") Hr)
    as (_ & H3 & _ & _).
  assert (Hno : inheritedMember (js "evt_1") = false) by (vm_compute; reflexivity).
  assert (Hyes : inheritedMember (js "constructor") = true) by (vm_compute; reflexivity).
  assert (Hnow : isExpanded (js "evt_1")
                   (expandedEvents (fst (onClickEventSummary (js "evt_1")
                                           (initialConsole 0 None)))) = true)
    by (vm_compute; reflexivity).
  split; [exact Hnow|].
  split; [exact (eq_trans (H1 Hno) (f_equal negb Hnow))|].
  split.
  { refine (eq_trans (H2 _) Hnow). vm_compute. discriminate. }
  split; [exact (proj1 (H3 Hyes))|].
  split; [exact (proj2 (proj2 (H3 Hyes)))|].
  cbn. unfold toggleExpanded.
  replace (isExpanded (js "evt_1") ∅) with false by (vm_compute; reflexivity).
  reflexivity.
Defined.

(* ------------------------------------------------------------------------ *)
(** ** The clock of the event log *)
(* ------------------------------------------------------------------------ *)

Lemma pad_twoDigits (n : Z) : 0 <= n < 100 -> pad n = twoDigits n.
Proof.
  intros Hn.
  assert (H : forallb (fun n => bool_decide (pad n = twoDigits n)) (seqZ 0 100) = true)
    by (vm_compute; reflexivity).
  rewrite forallb_forall in H. specialize (H n).
  apply bool_decide_eq_true in H; [done|].
  apply list_elem_of_In, elem_of_seqZ. lia.
Qed.

Lemma twoDigits_inj (a b : Z) :
  0 <= a < 100 -> 0 <= b < 100 -> twoDigits a = twoDigits b -> a = b.
Proof.
  intros Ha Hb. unfold twoDigits. intros [= H1 H2].
  apply N.add_cancel_l in H1, H2.
  apply Z2N.inj in H1; [|apply Z.div_pos; lia..].
  apply Z2N.inj in H2; [|apply Z.mod_pos_bound; lia..].
  rewrite (Z.div_mod a 10), (Z.div_mod b 10) by lia. lia.
Qed.

(** X21. The event clock reads mm:ss.hh and wraps every hour: for an event
    at or after the start instant the time shown is exactly eight
    characters, the two digits of the minutes (modulo 60), a colon, the two
    digits of the seconds, a dot and the two digits of the hundredths, all
    of the elapsed time; an event one hour later shows the same time. *)
Theorem formatTime_is_a_wrapping_clock (startTime timestamp : Z) :
  startTime <= timestamp ->
  let delta := timestamp - startTime in
  formatTime startTime timestamp
    = twoDigits ((delta / 60000) mod 60) ++ js ":"
      ++ twoDigits ((delta / 1000) mod 60) ++ js "."
      ++ twoDigits ((delta / 10) mod 100)
  /\ length (formatTime startTime timestamp) = 8%nat
  /\ formatTime startTime (timestamp + 3600000) = formatTime startTime timestamp.
Proof.
  intros Hle. cbn zeta.
  assert (Shape : forall t, startTime <= t ->
            formatTime startTime t
            = twoDigits (((t - startTime) / 60000) mod 60) ++ js ":"
              ++ twoDigits (((t - startTime) / 1000) mod 60) ++ js "."
              ++ twoDigits (((t - startTime) / 10) mod 100)).
  { intros t Ht. unfold formatTime. cbn zeta.
    assert (0 <= t - startTime) by lia.
    rewrite !Z.rem_mod_nonneg by (try apply Z.div_pos; lia).
    rewrite !pad_twoDigits
      by (match goal with
          | |- 0 <= ?x mod ?m < 100 => pose proof (Z.mod_pos_bound x m); lia
          end).
    reflexivity. }
  split; [by apply Shape|]. split; [by rewrite Shape|].
  rewrite !Shape by lia.
  replace (timestamp + 3600000 - startTime)
    with (timestamp - startTime + 3600000) by lia.
  set (d := timestamp - startTime).
  replace ((d + 3600000) / 60000) with (d / 60000 + 60)
    by (replace 3600000 with (60 * 60000) by lia; by rewrite Z.div_add).
  replace ((d + 3600000) / 1000) with (d / 1000 + 3600)
    by (replace 3600000 with (3600 * 1000) by lia; by rewrite Z.div_add).
  replace ((d + 3600000) / 10) with (d / 10 + 360000)
    by (replace 3600000 with (360000 * 10) by lia; by rewrite Z.div_add).
  replace (d / 60000 + 60) with (d / 60000 + 1 * 60) by lia.
  replace (d / 1000 + 3600) with (d / 1000 + 60 * 60) by lia.
  replace (d / 10 + 360000) with (d / 10 + 3600 * 100) by lia.
  by rewrite !Z.mod_add.
Qed.

Lemma formatTime_is_a_wrapping_clock_witness :
  formatTime 1000 (1000 + 754321) = js "12:34.32"
  /\ length (formatTime 1000 (1000 + 754321)) = 8%nat
  /\ formatTime 1000 (1000 + 754321 + 3600000) = js "12:34.32".
Proof.
  pose proof (formatTime_is_a_wrapping_clock 1000 (1000 + 754321) ltac:(lia))
    as (H1 & H2 & H3).
  split; [by vm_compute|]. split; [exact H2|].
  rewrite H3. by vm_compute.
Defined.

(** X22. Within the first hour the clock tells events apart down to the
    hundredth of a second: two events less than an hour after the start
    that show the same time happened within the same ten milliseconds. *)
Theorem formatTime_separates_hundredths (startTime d1 d2 : Z) :
  0 <= d1 < 3600000 ->
  0 <= d2 < 3600000 ->
  formatTime startTime (startTime + d1) = formatTime startTime (startTime + d2) ->
  d1 / 10 = d2 / 10.
Proof.
  intros H1 H2 Heq.
  destruct (formatTime_is_a_wrapping_clock startTime (startTime + d1) ltac:(lia))
    as (S1 & _).
  destruct (formatTime_is_a_wrapping_clock startTime (startTime + d2) ltac:(lia))
    as (S2 & _).
  rewrite S1, S2 in Heq. clear S1 S2.
  replace (startTime + d1 - startTime) with d1 in Heq by lia.
  replace (startTime + d2 - startTime) with d2 in Heq by lia.
  assert (B : forall x m, 0 < m -> m <= 100 -> 0 <= x mod m < 100)
    by (intros x m ? ?; pose proof (Z.mod_pos_bound x m); lia).
  unfold twoDigits in Heq.
  change (js ":") with [58%N] in Heq. change (js ".") with [46%N] in Heq.
  cbn [app] in Heq. inversion Heq as [[E1 E2 E3 E4 E5 E6]].
  assert (Em : (d1 / 60000) mod 60 = (d2 / 60000) mod 60).
  { apply twoDigits_inj; [by apply B | by apply B |].
    unfold twoDigits. by rewrite E1, E2. }
  assert (Es : (d1 / 1000) mod 60 = (d2 / 1000) mod 60).
  { apply twoDigits_inj; [by apply B | by apply B |].
    unfold twoDigits. by rewrite E3, E4. }
  assert (Eh : (d1 / 10) mod 100 = (d2 / 10) mod 100).
  { apply twoDigits_inj; [by apply B | by apply B |].
    unfold twoDigits. by rewrite E5, E6. }
  clear E1 E2 E3 E4 E5 E6 Heq B.
  Z.div_mod_to_equations. lia.
Qed.

Lemma formatTime_separates_hundredths_witness :
  formatTime 0 (0 + 754321) = formatTime 0 (0 + 754329)
  /\ 754321 / 10 = 754329 / 10.
Proof.
  split; [by vm_compute|].
  apply (formatTime_separates_hundredths 0 754321 754329); [lia | lia |].
  by vm_compute.
Defined.

(* ------------------------------------------------------------------------ *)
(** ** What an item shows *)
(* ------------------------------------------------------------------------ *)

Lemma orElse_nonempty (a : option jsstring) (b : jsstring) : b <> [] -> orElse a b <> [].
Proof. intros Hb. unfold orElse. by destruct a as [[|c s]|]. Qed.

Lemma orElse_some (s b : jsstring) : s <> [] -> orElse (Some s) b = s.
Proof. by destruct s. Qed.

(** X23. A user or assistant message always shows exactly one line of
    text and never an empty one: for every item without a tool call whose
    role is user or assistant, the content rendered holds exactly one text
    line, it is not the empty string, and it is the transcript whenever
    there is a non-empty one; an item that carries a tool call shows no text
    line at all. *)
Theorem message_shows_one_line (i : ItemType.t) :
  (ItemType.tool (ItemType.formatted i) = None ->
   ItemType.role i = Some (js "user") \/ ItemType.role i = Some (js "assistant") ->
   exists line : jsstring,
     List.filter isShownText (speakerContent i) = [ShownText line]
     /\ line <> []
     /\ (forall t : jsstring,
           ItemType.transcript (ItemType.formatted i) = Some t -> t <> [] -> line = t))
  /\ (forall t : ItemType.Tool,
        ItemType.tool (ItemType.formatted i) = Some t ->
        List.filter isShownText (speakerContent i) = []).
Proof.
  assert (Hne : js "user" <> js "assistant") by (vm_compute; discriminate).
  assert (Hu : userText (ItemType.formatted i) <> []).
  { unfold userText. apply orElse_nonempty.
    destruct (ItemType.audio (ItemType.formatted i)) as [[|x xs]|];
      try (by vm_compute); apply orElse_nonempty; by vm_compute. }
  assert (Ha : assistantText (ItemType.formatted i) <> []).
  { unfold assistantText. do 2 apply orElse_nonempty. by vm_compute. }
  unfold speakerContent. split.
  - intros Ht Hrole. rewrite Ht. cbn.
    destruct (streq (ItemType.type i) (js "function_call_output"));
      destruct (ItemType.file (ItemType.formatted i));
      destruct Hrole as [Hr|Hr]; rewrite Hr;
      repeat (case_bool_decide; simplify_eq); cbn;
      eexists; (split; [reflexivity|]); (split; [assumption|]);
      intros t Htr Htne; unfold userText, assistantText; rewrite Htr;
      by apply orElse_some.
  - intros t Ht. rewrite Ht. cbn.
    by destruct (streq (ItemType.type i) (js "function_call_output")),
         (ItemType.file (ItemType.formatted i)).
Qed.

Lemma message_shows_one_line_witness :
  let silent := {| ItemType.id := js "item_3"; ItemType.role := Some (js "user");
                   ItemType.type := js "message"; ItemType.status := js "completed";
                   ItemType.formatted :=
                     {| ItemType.transcript := Some []; ItemType.text := None;
                        ItemType.audio := Some [3; 4]; ItemType.tool := None;
                        ItemType.output := None; ItemType.file := None |} |} in
  exists line : jsstring,
    List.filter isShownText (speakerContent silent) = [ShownText line]
    /\ line <> []
    /\ line = js "(awaiting transcript)".
Proof.
  destruct (proj1 (message_shows_one_line
              {| ItemType.id := js "item_3"; ItemType.role := Some (js "user");
                 ItemType.type := js "message"; ItemType.status := js "completed";
                 ItemType.formatted :=
                   {| ItemType.transcript := Some []; ItemType.text := None;
                      ItemType.audio := Some [3; 4]; ItemType.tool := None;
                      ItemType.output := None; ItemType.file := None |} |})
            eq_refl (or_introl eq_refl)) as (line & H1 & H2 & _).
  exists line. split; [exact H1|]. split; [exact H2|].
  vm_compute in H1. by inversion H1.
Defined.

(* ------------------------------------------------------------------------ *)
(** ** A hold that runs out *)
(* ------------------------------------------------------------------------ *)

(** X24. A hold takes effect when its time is up, once: after
    [setAvatarStateSafely(s, ms)] with a positive [ms], from a state that
    keeps the timer invariant, the avatar has not moved; when the browser
    runs the timer the avatar shows [s] and no timer is pending; the timer
    running a second time, or any other handle running, changes nothing. *)
Theorem hold_takes_effect_once (p : Page) (s : AvatarState) (ms : Z) :
  timersOk p ->
  0 < ms ->
  let held := setAvatarStateSafely s ms p in
  let h := nextTimer p in
  avatarState held = avatarState p
  /\ avatarState (timerFires h held) = s
  /\ timers (timerFires h held) = ∅
  /\ timerFires h (timerFires h held) = timerFires h held
  /\ (forall h' : positive, h' <> h -> timerFires h' held = held).
Proof.
  intros Hok Hms. cbn zeta.
  destruct (setAvatarStateSafely_hold p s ms Hok Hms) as (Ht & Hr & Ha).
  split; [exact Ha|].
  assert (Hf : timers (timerFires (nextTimer p) (setAvatarStateSafely s ms p)) = ∅).
  { unfold timerFires. rewrite Ht, lookup_singleton_eq. cbn.
    by rewrite ?Ht, delete_singleton_eq. }
  split; [|split; [exact Hf|split]].
  - unfold timerFires. by rewrite Ht, lookup_singleton_eq.
  - unfold timerFires at 1. by rewrite Hf, lookup_empty.
  - intros h' Hne. unfold timerFires. by rewrite Ht, lookup_singleton_ne.
Qed.

Lemma hold_takes_effect_once_witness :
  let held := setAvatarStateSafely idle 500
                (with_avatarState talk (initialPage (Some connectedClient))) in
  avatarState held = talk
  /\ avatarState (timerFires 1 held) = idle
  /\ timers (timerFires 1 held) = ∅.
Proof.
  pose proof (hold_takes_effect_once
                (with_avatarState talk (initialPage (Some connectedClient)))
                idle 500 (timersOk_initial _) ltac:(lia)) as (H1 & H2 & H3 & _).
  split; [exact H1|]. split; [exact H2|exact H3].
Defined.
